(** * OpenPhone iOS agent: UI-hierarchy pipeline and coordinate transforms

    A shallow embedding of the parts of [src/ios_agent] that turn a
    WebDriverAgent page source into an indexed list of interactive elements
    ([hierarchy.py]), address such an element by index ([executor.py]),
    convert between logical and physical coordinates ([actions.py]) and pick
    the screenshot scale factor ([labeling.py]).

    Python values are modelled as follows.
    - [int] is [Z]; [str] is [string], a sequence of code points below 256.
    - A call that may raise returns [Py.res]: [Ok v] or [Raise e]; [try] /
      [except] is [Py.try_except] with the set of exception classes caught.
    - A [float] is a sign, a significand and a binary exponent; a decimal
      literal or an integer quotient is rounded to 53 significant bits, ties
      to even, as binary64 does.
    - A parsed XML element is a tree [XNode] of tag, attributes, children. *)

From Stdlib Require Import ZArith List String Ascii Bool Lia DecimalString.
From Stdlib Require Import QArith Qabs.
Import ListNotations.
Local Open Scope string_scope.
Local Open Scope Z_scope.

(* ================================================================== *)
(** * The Python run-time the sources rely on *)
(* ================================================================== *)

Module Py.

(** ** Exceptions and results *)

Inductive exn : Type :=
| ValueError
| TypeError
| OverflowError
| ZeroDivisionError
| AssertionError.

Inductive res (A : Type) : Type :=
| Ok (a : A)
| Raise (e : exn).

Arguments Ok {A} a.
Arguments Raise {A} e.

Definition bind {A B : Type} (m : res A) (k : A -> res B) : res B :=
  match m with
  | Ok a => k a
  | Raise e => Raise e
  end.

(** [try: m except <classes>: handler]. *)
Definition try_except {A : Type} (m : res A) (catches : exn -> bool)
    (handler : res A) : res A :=
  match m with
  | Ok a => Ok a
  | Raise e => if catches e then handler else Raise e
  end.

(** [except Exception] catches every class above. *)
Definition any_exception (_ : exn) : bool := true.

Definition exn_eqb (a b : exn) : bool :=
  match a, b with
  | ValueError, ValueError | TypeError, TypeError
  | OverflowError, OverflowError | ZeroDivisionError, ZeroDivisionError
  | AssertionError, AssertionError => true
  | _, _ => false
  end.

(** ** Strings *)

Definition code (c : ascii) : Z := Z.of_N (N_of_ascii c).

(** [str.isspace] on one code point below 256. *)
Definition is_space (c : ascii) : bool :=
  let n := code c in
  ((9 <=? n) && (n <=? 13)) || ((28 <=? n) && (n <=? 32))
  || (n =? 133) || (n =? 160).

Definition is_digit (c : ascii) : bool :=
  let n := code c in (48 <=? n) && (n <=? 57).

Fixpoint lstrip (s : string) : string :=
  match s with
  | String c s' => if is_space c then lstrip s' else s
  | EmptyString => EmptyString
  end.

Fixpoint rstrip (s : string) : string :=
  match s with
  | String c s' =>
      match rstrip s' with
      | EmptyString => if is_space c then EmptyString else String c EmptyString
      | r => String c r
      end
  | EmptyString => EmptyString
  end.

(** [s.strip()] *)
Definition strip (s : string) : string := rstrip (lstrip s).

(** [sub in s] *)
Fixpoint contains (sub s : string) : bool :=
  prefix sub s ||
  match s with
  | String _ s' => contains sub s'
  | EmptyString => false
  end.

(** [s.startswith(p)], [s.endswith(p)] *)
Definition startswith (s p : string) : bool := prefix p s.

Fixpoint endswith (s p : string) : bool :=
  String.eqb s p ||
  match s with
  | String _ s' => endswith s' p
  | EmptyString => false
  end.

(** [s.split(sep)] for a one-character separator. *)
Fixpoint split (sep : ascii) (s : string) : list string :=
  match s with
  | EmptyString => [EmptyString]
  | String c s' =>
      if Ascii.eqb c sep then EmptyString :: split sep s'
      else match split sep s' with
           | p :: ps => String c p :: ps
           | [] => [String c EmptyString]
           end
  end.

(** [s.replace(old, new)]: occurrences of [old] are found left to right and
    do not overlap.  [skip] counts the characters of the occurrence under
    replacement that are still to be dropped. *)
Fixpoint replace_from (old new : string) (skip : nat) (s : string) : string :=
  match s with
  | EmptyString => EmptyString
  | String c s' =>
      match skip with
      | S k => replace_from old new k s'
      | O =>
          if prefix old s
          then new ++ replace_from old new (String.length old - 1)%nat s'
          else String c (replace_from old new O s')
      end
  end.

Fixpoint intersperse (new s : string) : string :=
  match s with
  | EmptyString => new
  | String c s' => new ++ String c (intersperse new s')
  end.

Definition replace (old new s : string) : string :=
  match old with
  | EmptyString => intersperse new s
  | _ => replace_from old new O s
  end.

(** [s[1:-1]] and [s[:n]] *)
Definition slice_1_m1 (s : string) : string :=
  substring 1 (String.length s - 2)%nat s.

Definition slice_to (n : nat) (s : string) : string := substring 0 n s.

(** [str(z)] for an [int]. *)
Definition str_of_int (z : Z) : string := NilZero.string_of_int (Z.to_int z).

Definition lower_char (c : ascii) : ascii :=
  let n := code c in
  if (65 <=? n) && (n <=? 90) then ascii_of_N (Z.to_N (n + 32)) else c.

Fixpoint lower (s : string) : string :=
  match s with
  | String c s' => String (lower_char c) (lower s')
  | EmptyString => EmptyString
  end.

(** Truth value of an optional string ([None] and [''] are false). *)
Definition truthy (o : option string) : bool :=
  match o with
  | Some (String _ _) => true
  | _ => false
  end.

(** ** Floats *)

(** [FFin neg m e] is the number [(-1)^neg * m * 2^e]. *)
Inductive pyfloat : Type :=
| FNan
| FInf (neg : bool)
| FFin (neg : bool) (m : Z) (e : Z).

Definition round_half_even (n d : Z) : Z :=
  let q := n / d in
  let r := n mod d in
  if 2 * r <? d then q
  else if d <? 2 * r then q + 1
  else if Z.even q then q else q + 1.

(** The [e] with [2^e <= n/d < 2^(e+1)], for [n, d > 0]. *)
Definition floor_log2_frac (n d : Z) : Z :=
  let e0 := Z.log2 n - Z.log2 d in
  let below := if 0 <=? e0 then n <? d * 2 ^ e0 else n * 2 ^ (- e0) <? d in
  if below then e0 - 1 else e0.

(** The binary64 number nearest to [n/d] ([n >= 0], [d > 0]), with sign
    [neg]; [FInf] when the rounded value does not fit.  Below [2^-1022] a
    binary64 number has fewer significant bits than the 53 kept here; the
    sources only ever truncate a float to an integer, and every number
    below 1 truncates to 0 with either precision. *)
Definition round64 (neg : bool) (n d : Z) : pyfloat :=
  if n =? 0 then FFin neg 0 0
  else
    let e := floor_log2_frac n d in
    let s := 52 - e in
    let m := if 0 <=? s then round_half_even (n * 2 ^ s) d
             else round_half_even n (d * 2 ^ (- s)) in
    if (1024 <=? e) || ((e =? 1023) && (m =? 2 ^ 53)) then FInf neg
    else FFin neg m (- s).

(** [int(f)]: truncation toward zero. *)
Definition int_of_float (f : pyfloat) : res Z :=
  match f with
  | FNan => Raise ValueError
  | FInf _ => Raise OverflowError
  | FFin neg m e =>
      let a := if 0 <=? e then m * 2 ^ e else m / 2 ^ (- e) in
      Ok (if neg then - a else a)
  end.

(** [a / b] on two [int]s. *)
Definition truediv (a b : Z) : res pyfloat :=
  if b =? 0 then Raise ZeroDivisionError
  else
    match round64 (xorb (a <? 0) (b <? 0)) (Z.abs a) (Z.abs b) with
    | FInf _ => Raise OverflowError
    | f => Ok f
    end.

(** *** [float(s)] on a string *)

(** Underscores may only stand between two digits; they are dropped. *)
Fixpoint drop_underscores (prev_digit : bool) (s : string) : option string :=
  match s with
  | EmptyString => Some EmptyString
  | String c s' =>
      if Ascii.eqb c "_" then
        match s' with
        | String d _ =>
            if prev_digit && is_digit d then drop_underscores false s'
            else None
        | EmptyString => None
        end
      else option_map (String c) (drop_underscores (is_digit c) s')
  end.

(** Reads a run of digits, extending the number [acc]; returns the number,
    how many digits were read and the rest. *)
Fixpoint read_digits (s : string) (acc : Z) (cnt : Z) : Z * Z * string :=
  match s with
  | String c s' =>
      if is_digit c then read_digits s' (10 * acc + (code c - 48)) (cnt + 1)
      else (acc, cnt, s)
  | EmptyString => (acc, cnt, s)
  end.

Definition read_sign (s : string) : bool * string :=
  match s with
  | String c s' =>
      if Ascii.eqb c "-" then (true, s')
      else if Ascii.eqb c "+" then (false, s')
      else (false, s)
  | EmptyString => (false, s)
  end.

(** The float nearest to [m * 10^ex]. *)
Definition float_of_decimal (neg : bool) (m ex : Z) : pyfloat :=
  if 0 <=? ex then round64 neg (m * 10 ^ ex) 1
  else round64 neg m (10 ^ (- ex)).

Definition is_exp_mark (c : ascii) : bool :=
  Ascii.eqb c "e" || Ascii.eqb c "E".

Definition parse_float (s : string) : option pyfloat :=
  let '(neg, s1) := read_sign s in
  let low := lower s1 in
  if String.eqb low "inf" || String.eqb low "infinity" then Some (FInf neg)
  else if String.eqb low "nan" then Some FNan
  else
    let '(ip, ni, s2) := read_digits s1 0 0 in
    let '(mant, nf, s3) :=
      match s2 with
      | String c r => if Ascii.eqb c "." then read_digits r ip 0
                      else (ip, 0, s2)
      | EmptyString => (ip, 0, s2)
      end in
    if ni + nf =? 0 then None
    else
      match s3 with
      | EmptyString => Some (float_of_decimal neg mant (- nf))
      | String c r =>
          if is_exp_mark c then
            let '(eneg, r1) := read_sign r in
            let '(ev, ne, r2) := read_digits r1 0 0 in
            if (ne =? 0) || negb (String.eqb r2 EmptyString) then None
            else Some (float_of_decimal neg mant
                         ((if eneg then - ev else ev) - nf))
          else None
      end.

(** [float(s)]: surrounding white space is ignored. *)
Definition float (s : string) : res pyfloat :=
  match drop_underscores false (strip s) with
  | None => Raise ValueError
  | Some t =>
      match parse_float t with
      | Some f => Ok f
      | None => Raise ValueError
      end
  end.

(** [int(float(s))] *)
Definition int_float (s : string) : res Z :=
  bind (float s) int_of_float.

(** [int(a / b)] on two [int]s. *)
Definition int_truediv (a b : Z) : res Z :=
  bind (truediv a b) int_of_float.

(** Converting an [int] to a float fails from [2^1024 - 2^970] on, the
    first integer that rounds to [2^1024]. *)
Definition int_too_large_for_float (n : Z) : bool :=
  2 ^ 1024 - 2 ^ 970 <=? Z.abs n.

End Py.

Import Py.

Declare Scope py_scope.
Notation "x <- m ;; k" := (Py.bind m (fun x => k))
  (at level 61, m at next level, right associativity) : py_scope.
Local Open Scope py_scope.

(* ================================================================== *)
(** * hierarchy.py *)
(* ================================================================== *)

(** An element of the parsed page source ([xml.etree.ElementTree.Element]):
    tag, attributes and children in document order. *)
Unset Elimination Schemes.
Inductive XNode : Type :=
| Node (tag : string) (attrib : list (string * string)) (children : list XNode).
Set Elimination Schemes.

Definition tag_of (n : XNode) : string :=
  match n with Node t _ _ => t end.

Definition attrib_of (n : XNode) : list (string * string) :=
  match n with Node _ a _ => a end.

Definition children_of (n : XNode) : list XNode :=
  match n with Node _ _ c => c end.

Fixpoint lookup (k : string) (a : list (string * string)) : option string :=
  match a with
  | [] => None
  | (k', v) :: a' => if String.eqb k' k then Some v else lookup k a'
  end.

(** [element.get(key)] and [element.get(key, default)] *)
Definition get (n : XNode) (k : string) : option string :=
  lookup k (attrib_of n).

Definition get_or (n : XNode) (k : string) (default : string) : string :=
  match get n k with
  | Some v => v
  | None => default
  end.

Definition Point : Type := Z * Z.
Definition BBox : Type := Point * Point.

Record IOSElement : Type := mkIOSElement {
  uid : string;
  bbox : BBox;
  attrib : string;
  element_type : string;
  name : option string;
  label : option string;
  identifier : option string
}.

Definition nonempty (s : string) : bool :=
  match s with
  | EmptyString => false
  | String _ _ => true
  end.

(** ** parse_bounds *)

(** The four [int(float(parts[i].strip()))] and the rectangle they give. *)
Definition bounds_of_parts (parts : list string) : res BBox :=
  x <- int_float (strip (nth 0 parts "")) ;;
  y <- int_float (strip (nth 1 parts "")) ;;
  width <- int_float (strip (nth 2 parts "")) ;;
  height <- int_float (strip (nth 3 parts "")) ;;
  Ok ((x, y), (x + width, y + height)).

Definition strip_braces (s : string) : string :=
  replace "}" "" (replace "{" "" (replace "}}" "" (replace "{{" "" s))).

(** The second block of [parse_bounds], the simple format. *)
Definition parse_simple (bounds_str : string) : res (option BBox) :=
  let parts := split "," bounds_str in
  if (4 <=? List.length parts)%nat
  then b <- bounds_of_parts parts ;; Ok (Some b)
  else Ok None.

Definition parse_bounds (bounds_str : string) : res (option BBox) :=
  if negb (nonempty bounds_str) then Ok None
  else
    try_except
      (if contains "{{" bounds_str then
         let bounds_str := strip_braces bounds_str in
         let parts := split "," bounds_str in
         if (4 <=? List.length parts)%nat
         then b <- bounds_of_parts parts ;; Ok (Some b)
         else parse_simple bounds_str
       else parse_simple bounds_str)
      any_exception
      (Ok None).

(** ** get_element_bounds *)

Definition value_or_type_error (e : exn) : bool :=
  exn_eqb e ValueError || exn_eqb e TypeError.

Definition get_element_bounds (element : XNode) : res (option BBox) :=
  let bounds_str := get_or element "bounds" "" in
  first <- (if nonempty bounds_str then parse_bounds bounds_str else Ok None) ;;
  match first with
  | Some bbox => Ok (Some bbox)
  | None =>
      try_except
        (let x_str := get_or element "x" "" in
         let y_str := get_or element "y" "" in
         let width_str := get_or element "width" "" in
         let height_str := get_or element "height" "" in
         if nonempty x_str && nonempty y_str
            && nonempty width_str && nonempty height_str
         then
           x <- int_float x_str ;;
           y <- int_float y_str ;;
           width <- int_float width_str ;;
           height <- int_float height_str ;;
           Ok (Some ((x, y), (x + width, y + height)))
         else Ok None)
        value_or_type_error
        (Ok None)
  end.

(** ** get_element_id *)

(** [a or b] on optional strings. *)
Definition py_or (a b : option string) : option string :=
  if truthy a then a else b.

(** An [Element] always has a [tag], so [element_type] is [element.tag]. *)
Definition get_element_id (element : XNode) : res string :=
  let element_type := tag_of element in
  bbox <- get_element_bounds element ;;
  let '(elem_w, elem_h) :=
    match bbox with
    | Some b => (fst (snd b) - fst (fst b), snd (snd b) - snd (fst b))
    | None => (0, 0)
    end in
  let identifier :=
    py_or (get element "name")
      (py_or (get element "identifier") (Some (get_or element "label" ""))) in
  match identifier with
  | Some (String c r) =>
      Ok (element_type ++ "_"
            ++ replace ":" "_" (replace " " "_" (String c r)))
  | _ =>
      Ok (element_type ++ "_" ++ str_of_int elem_w ++ "_" ++ str_of_int elem_h)
  end.

(** ** is_interactive_element *)

Definition interactive_types : list string :=
  [ "XCUIElementTypeButton";
    "XCUIElementTypeCell";
    "XCUIElementTypeTextField";
    "XCUIElementTypeSecureTextField";
    "XCUIElementTypeSearchField";
    "XCUIElementTypeSlider";
    "XCUIElementTypeSwitch";
    "XCUIElementTypeTab";
    "XCUIElementTypeLink";
    "XCUIElementTypeImage";
    "XCUIElementTypeIcon";
    "XCUIElementTypeStaticText" ].

Definition is_interactive_element (element : XNode) : res bool :=
  let element_type := tag_of element in
  let is_interactive_type :=
    existsb (fun interactive_type => contains interactive_type element_type)
            interactive_types in
  if negb is_interactive_type then Ok false
  else if String.eqb (get_or element "enabled" "true") "false" then Ok false
  else if String.eqb (get_or element "visible" "true") "false" then Ok false
  else
    bbox <- get_element_bounds element ;;
    match bbox with
    | None => Ok false
    | Some ((x1, y1), (x2, y2)) =>
        let width := x2 - x1 in
        let height := y2 - y1 in
        if (width <=? 0) || (height <=? 0) then Ok false
        else if (x1 =? 0) && (y1 =? 0) && (x2 =? 0) && (y2 =? 0) then Ok false
        else Ok true
    end.

(** ** traverse_ios_tree *)

Definition center (b : BBox) : Point :=
  ((fst (fst b) + fst (snd b)) / 2, (snd (fst b) + snd (snd b)) / 2).

(** The square of the distance between two points. *)
Definition dist2 (p q : Point) : Z :=
  (fst p - fst q) ^ 2 + (snd p - snd q) ^ 2.

(** [((dx) ** 2 + (dy) ** 2) ** 0.5 <= r] for an integer radius [r >= 0].
    The sum of squares is an [int]; raising it to [0.5] first converts it to
    a float, which fails on an integer too large.  Otherwise the square root
    of a non-negative integer is at most [r] exactly when the integer is at
    most [r * r]: the integers up to [r * r + 1] are floats themselves, and
    the root of [r * r + 1] is above [r] by far more than one rounding. *)
Definition dist_le (p q : Point) (r : Z) : res bool :=
  let n := dist2 p q in
  if int_too_large_for_float n then Raise OverflowError
  else Ok (n <=? r * r).

(** [for e in elems: ... if dist <= r: close = True; break] *)
Fixpoint close_to (c : Point) (r : Z) (elems : list IOSElement) : res bool :=
  match elems with
  | [] => Ok false
  | e :: rest =>
      near <- dist_le c (center (bbox e)) r ;;
      if near then Ok true else close_to c r rest
  end.

(** [path[-2]] *)
Definition parent_in (path : list XNode) (default : XNode) : XNode :=
  nth (List.length path - 2) path default.

(** The body of [traverse] for one node, children apart; [path] already ends
    with [node]. *)
Definition visit (attrib : string) (add_index : bool) (path : list XNode)
    (node : XNode) (elem_list : list IOSElement) : res (list IOSElement) :=
  interactive <- is_interactive_element node ;;
  if interactive then
    found <- get_element_bounds node ;;
    match found with
    | Some bbox =>
        close <- close_to (center bbox) 5 elem_list ;;
        if close then Ok elem_list
        else
          elem_id <- get_element_id node ;;
          elem_id <- (if (1 <? List.length path)%nat
                      then parent_id <- get_element_id (parent_in path node) ;;
                           Ok (parent_id ++ "_" ++ elem_id)
                      else Ok elem_id) ;;
          let elem_id :=
            if add_index then elem_id ++ "_" ++ get_or node "index" "0"
            else elem_id in
          Ok (elem_list ++
                [ mkIOSElement elem_id bbox attrib (tag_of node)
                    (get node "name") (get node "label")
                    (get node "identifier") ])%list
    | None => Ok elem_list
    end
  else Ok elem_list.

(** The nested [traverse]: the node, then its children in document order.
    (Python's bound on the depth of recursion is not modelled.) *)
Fixpoint traverse (attrib : string) (add_index : bool) (node : XNode)
    (path : list XNode) (elem_list : list IOSElement)
    : res (list IOSElement) :=
  let path := (path ++ [node])%list in
  elem_list <- visit attrib add_index path node elem_list ;;
  match node with
  | Node _ _ children =>
      (fix each (cs : list XNode) (elem_list : list IOSElement) :=
         match cs with
         | [] => Ok elem_list
         | child :: cs' =>
             elem_list <- traverse attrib add_index child path elem_list ;;
             each cs' elem_list
         end) children elem_list
  end.

Section Hierarchy.

(** [ET.fromstring]: the root element, or [None] when it raises. *)
Variable fromstring : string -> option XNode.

(** The function appends to [elem_list] in place; here it returns the list
    as it is afterwards. *)
Definition traverse_ios_tree (xml_string : string)
    (elem_list : list IOSElement) (attrib : string) (add_index : bool)
    : res (list IOSElement) :=
  match fromstring xml_string with
  | None => Ok elem_list
  | Some root => traverse attrib add_index root [] elem_list
  end.

(** ** get_ios_elements *)

(** The second loop of the merge. *)
Fixpoint merge_focusable (clickable_list focusable_list elem_list : list IOSElement)
    : res (list IOSElement) :=
  match focusable_list with
  | [] => Ok elem_list
  | elem :: rest =>
      close <- close_to (center (bbox elem)) 10 clickable_list ;;
      merge_focusable clickable_list rest
        (if close then elem_list else elem_list ++ [elem])%list
  end.

Definition get_ios_elements (xml_string : string) : res (list IOSElement) :=
  if negb (nonempty xml_string) || (String.length (strip xml_string) =? 0)%nat
  then Ok []
  else
    clickable_list <- traverse_ios_tree xml_string [] "clickable" true ;;
    focusable_list <- traverse_ios_tree xml_string [] "focusable" true ;;
    let elem_list := ([] ++ clickable_list)%list in
    merge_focusable clickable_list focusable_list elem_list.

End Hierarchy.

(** ** get_page_source *)

(** A decoded JSON document, as [response.json()] returns it.  A number that
    is not an integer is kept as the text Python prints for it. *)
Unset Elimination Schemes.
Inductive json : Type :=
| JNull
| JBool (b : bool)
| JInt (z : Z)
| JFloat (printed : string)
| JStr (s : string)
| JList (items : list json)
| JDict (items : list (string * json)).
Set Elimination Schemes.

(** What [requests.get] does for one URL. *)
Inductive reply : Type :=
| Timeout
| ConnectionError
| OtherError
| Response (status_code : Z) (body_json : option json) (text : string).

Definition chr (n : nat) : string := String (ascii_of_nat n) EmptyString.
Definition newline : string := chr 10.
Definition tab : string := chr 9.
Definition carriage_return : string := chr 13.
Definition dquote : string := chr 34.
Definition squote : string := chr 39.
Definition backslash : string := chr 92.

Definition json_truth (j : json) : bool :=
  match j with
  | JNull => false
  | JBool b => b
  | JInt z => negb (z =? 0)
  | JFloat p => negb (String.eqb p "0.0" || String.eqb p "-0.0")
  | JStr s => nonempty s
  | JList l => match l with [] => false | _ => true end
  | JDict l => match l with [] => false | _ => true end
  end.

Definition is_dict (j : json) : bool :=
  match j with JDict _ => true | _ => false end.

Definition is_null (j : json) : bool :=
  match j with JNull => true | _ => false end.

Fixpoint dict_lookup (k : string) (items : list (string * json)) : json :=
  match items with
  | [] => JNull
  | (k', v) :: rest => if String.eqb k' k then v else dict_lookup k rest
  end.

(** [d.get(key)]; used on dicts only. *)
Definition json_get (d : json) (k : string) : json :=
  match d with
  | JDict items => dict_lookup k items
  | _ => JNull
  end.

Definition json_or (a b : json) : json := if json_truth a then a else b.

Definition hex_digit (n : Z) : string :=
  String (ascii_of_N (Z.to_N (if n <? 10 then 48 + n else 87 + n))) EmptyString.

(** [repr] of one character of a string, inside the quote [q]. *)
Definition repr_char (q : ascii) (c : ascii) : string :=
  let n := code c in
  if Ascii.eqb c q || (n =? 92) then backslash ++ String c EmptyString
  else if n =? 10 then backslash ++ "n"
  else if n =? 13 then backslash ++ "r"
  else if n =? 9 then backslash ++ "t"
  else if (n <? 32) || ((127 <=? n) && (n <=? 160)) || (n =? 173)
  then backslash ++ "x" ++ hex_digit (n / 16) ++ hex_digit (n mod 16)
  else String c EmptyString.

Fixpoint repr_chars (q : ascii) (s : string) : string :=
  match s with
  | EmptyString => EmptyString
  | String c s' => repr_char q c ++ repr_chars q s'
  end.

Definition repr_str (s : string) : string :=
  let q := if contains squote s && negb (contains dquote s)
           then ascii_of_nat 34 else ascii_of_nat 39 in
  String q (repr_chars q s ++ String q EmptyString).

(** [repr(j)] of a decoded document. *)
Fixpoint repr_json (j : json) : string :=
  match j with
  | JNull => "None"
  | JBool true => "True"
  | JBool false => "False"
  | JInt z => str_of_int z
  | JFloat p => p
  | JStr s => repr_str s
  | JList items =>
      "[" ++ (fix join (l : list json) : string :=
                match l with
                | [] => EmptyString
                | [x] => repr_json x
                | x :: l' => repr_json x ++ ", " ++ join l'
                end) items ++ "]"
  | JDict items =>
      "{" ++ (fix join (l : list (string * json)) : string :=
                match l with
                | [] => EmptyString
                | [(k, v)] => repr_str k ++ ": " ++ repr_json v
                | (k, v) :: l' => repr_str k ++ ": " ++ repr_json v ++ ", " ++ join l'
                end) items ++ "}"
  end.

(** [str(j)] *)
Definition str_json (j : json) : string :=
  match j with
  | JStr s => s
  | _ => repr_json j
  end.

(** Lines 59-84: where the payload is looked for in the decoded body. *)
Definition extract_source (data : json) : json :=
  if is_dict data then
    let source := json_get data "value" in
    let source :=
      if is_dict source
      then json_or (json_get source "source") (json_get source "value")
      else source in
    let source := if is_null source then json_get data "source" else source in
    let source :=
      if is_null source && is_dict (json_get data "value")
      then json_get (json_get data "value") "source"
      else source in
    if is_dict source
    then json_or (json_get source "source") (json_get source "value")
    else source
  else if json_truth data then JStr (str_json data) else JNull.

(** The plausibility test of both branches. *)
Definition looks_like_xml (s : string) : bool :=
  startswith s "<" || contains "<?xml" (slice_to 100 s).

(** Lines 88-96: quotes removed, escape sequences undone. *)
Definition unquote_unescape (source : string) : string :=
  let source := strip source in
  let source :=
    if (startswith source dquote && endswith source dquote)
       || (startswith source squote && endswith source squote)
    then slice_1_m1 source else source in
  let source :=
    replace (backslash ++ "r") carriage_return
      (replace (backslash ++ "t") tab
         (replace (backslash ++ "n") newline source)) in
  replace (backslash ++ squote) squote
    (replace (backslash ++ dquote) dquote source).

(** What one answer with status 200 makes the function return; [None] when
    the loop goes on to the next URL.  In the JSON branch the string is
    returned whatever the plausibility test says, and whether
    [ET.fromstring] accepts it or raises [ParseError]; in the text branch
    only a body that passes the test is returned.  The warnings printed on
    the way are left out. *)
Definition source_of_200 (body_json : option json) (text : string)
    : option string :=
  match body_json with
  | Some data =>
      match extract_source data with
      | JStr source =>
          if nonempty source && (0 <? String.length (strip source))%nat
          then
            let source := unquote_unescape source in
            let source_stripped := strip source in
            if looks_like_xml source_stripped then Some source
            else Some source
          else None
      | _ => None
      end
  | None =>
      if nonempty text && (0 <? String.length (strip text))%nat then
        let text := strip text in
        if looks_like_xml text then Some text else None
      else None
  end.

Fixpoint rstrip_char (c : ascii) (s : string) : string :=
  match s with
  | String d s' =>
      match rstrip_char c s' with
      | EmptyString => if Ascii.eqb d c then EmptyString else String d EmptyString
      | r => String d r
      end
  | EmptyString => EmptyString
  end.

Definition urls_to_try (wda_url : string) (session_id : option string)
    : list string :=
  let base := rstrip_char "/" wda_url in
  let with_session :=
    match session_id with
    | Some (String c r) => [base ++ "/session/" ++ String c r ++ "/source"]
    | _ => []
    end in
  List.app with_session [base ++ "/source"].

Section Transport.

(** [requests.get(url, timeout=timeout, verify=False)] *)
Variable requests_get : string -> reply.

Fixpoint try_urls (urls : list string) : option string :=
  match urls with
  | [] => None
  | url :: rest =>
      match requests_get url with
      | Response status_code body_json text =>
          if status_code =? 200 then
            match source_of_200 body_json text with
            | Some source => Some source
            | None => try_urls rest
            end
          else try_urls rest
      | Timeout | ConnectionError | OtherError => try_urls rest
      end
  end.

Definition get_page_source (wda_url : string) (session_id : option string)
    : option string :=
  try_urls (urls_to_try wda_url session_id).

End Transport.

(* ================================================================== *)
(** * actions.py *)
(* ================================================================== *)

Definition SCALE_FACTOR : Z := 3.

Definition _physical_to_logical (x y : Z) : res (Z * Z) :=
  lx <- int_truediv x SCALE_FACTOR ;;
  ly <- int_truediv y SCALE_FACTOR ;;
  Ok (lx, ly).

(** [int(x * SCALE_FACTOR)] on an [int] is the product itself. *)
Definition _logical_to_physical (x y : Z) : Z * Z :=
  (x * SCALE_FACTOR, y * SCALE_FACTOR).

(* ================================================================== *)
(** * executor.py *)
(* ================================================================== *)

Module Executor.

(** Python exceptions of this module: the two of [tap_by_index], and the
    [IndexError] of a list subscript. *)
Inductive error : Type :=
| ValueError_empty_list
| AssertionError_out_of_range
| IndexError.

(** The dictionaries stored in [current_return]. *)
Inductive ret : Type :=
| TapDone (x y : Z)
| TapError (index : Z).

Record IOSExecutor : Type := mkExecutor {
  elem_list : list IOSElement;
  current_return : option ret;
  (** physical points handed to [action_handler.tap], latest first *)
  taps : list (Z * Z)
}.

(** [l[i]] *)
Definition subscript {A : Type} (l : list A) (i : Z) : option A :=
  let n := Z.of_nat (List.length l) in
  if (0 <=? i) && (i <? n) then nth_error l (Z.to_nat i)
  else if (- n <=? i) && (i <? 0) then nth_error l (Z.to_nat (n + i))
  else None.

Definition tap (self : IOSExecutor) (x y : Z) : IOSExecutor * ret :=
  (mkExecutor (elem_list self) (Some (TapDone x y)) ((x, y) :: taps self),
   TapDone x y).

Definition tap_by_index (self : IOSExecutor) (index : Z)
    : IOSExecutor * (ret + error) :=
  match elem_list self with
  | [] =>
      (mkExecutor (elem_list self) (Some (TapError index)) (taps self),
       inr ValueError_empty_list)
  | _ =>
      if negb ((0 <? index) && (index <=? Z.of_nat (List.length (elem_list self))))
      then (self, inr AssertionError_out_of_range)
      else
        match subscript (elem_list self) (index - 1) with
        | None => (self, inr IndexError)
        | Some elem =>
            let '(tl, br) := bbox elem in
            let x_logical := (fst tl + fst br) / 2 in
            let y_logical := (snd tl + snd br) / 2 in
            let '(x, y) := _logical_to_physical x_logical y_logical in
            let '(self', r) := tap self x y in
            (self', inl r)
        end
  end.

End Executor.

(* ================================================================== *)
(** * labeling.py *)
(* ================================================================== *)

Module Labeling.

(** A Python number: an [int], or a float given by the rational it stands
    for. *)
Inductive number : Type :=
| NInt (z : Z)
| NFloat (q : Q).

(** What [cv2.imread] gives: an exception, [None], or an image, of which
    only [img.shape[:2]] is used. *)
Inductive imread_result : Type :=
| ImreadRaises
| ImreadNone
| Image (height width : Z).

Definition IOS_SCALE_FACTOR : Z := 3.

Definition Qltb (a b : Q) : bool := negb (Qle_bool b a).

(** [abs(width / k - logical) < 10].  The quotient and the difference are
    floats in the source; for an integer [width] they miss the rational
    value by far less than the distance of that value from 10, so the test
    is the one on rationals. *)
Definition near_logical (width k logical : Z) : bool :=
  Qltb (Qabs (inject_Z width / inject_Z k - inject_Z logical)) (inject_Z 10).

Definition _get_scale_factor (img : imread_result) : number :=
  match img with
  | ImreadRaises => NInt IOS_SCALE_FACTOR
  | ImreadNone => NInt IOS_SCALE_FACTOR
  | Image height width =>
      if 1100 <=? width then
        if near_logical width 3 393 then NFloat 3
        else if near_logical width 3 390 then NFloat 3
        else if near_logical width 2 375 then NFloat 2
        else NFloat (inject_Z width / 375)
      else NFloat 1
  end.

End Labeling.

(* ================================================================== *)
(** * actions.py, the action handler *)
(* ================================================================== *)

Definition _get_wda_session_url (wda_url : string) (session_id : option string)
    (endpoint : string) : string :=
  let base := rstrip_char "/" wda_url in
  match session_id with
  | Some (String c r) => base ++ "/session/" ++ String c r ++ "/" ++ endpoint
  | _ => base ++ "/" ++ endpoint
  end.

Definition APP_PACKAGES_IOS : list (string * string) :=
  [ ("Safari", "com.apple.mobilesafari");
    ("Settings", "com.apple.Preferences");
    ("Messages", "com.apple.MobileSMS");
    ("Mail", "com.apple.mobilemail");
    ("Photos", "com.apple.mobileslideshow");
    ("Camera", "com.apple.camera");
    ("Clock", "com.apple.mobiletimer");
    ("Calendar", "com.apple.mobilecal");
    ("Maps", "com.apple.Maps");
    ("Music", "com.apple.Music");
    ("App Store", "com.apple.AppStore");
    ("Notes", "com.apple.mobilenotes");
    ("Reminders", "com.apple.reminders");
    ("Weather", "com.apple.weather");
    ("Calculator", "com.apple.calculator");
    ("Contacts", "com.apple.MobileAddressBook");
    ("FaceTime", "com.apple.facetime");
    ("Phone", "com.apple.mobilephone");
    ("Feishu", "com.bytedance.feishu");
    ("Lark", "com.bytedance.lark");
    ("WeChat", "com.tencent.xinWeChat");
    ("Meituan", "com.sankuai.meituan") ].

Module IOSActionHandler.

(** What [requests.post] does: it raises, or answers with a status. *)
Inductive post_reply : Type :=
| PostRaises
| PostStatus (status_code : Z).

(** [response.status_code in (200, 201)] *)
Definition accepted (r : post_reply) : bool :=
  match r with
  | PostStatus s => (s =? 200) || (s =? 201)
  | PostRaises => false
  end.

(** [for app_name, package in APP_PACKAGES_IOS.items(): if package ==
    bundle_id: return app_name], [None] when the loop ends. *)
Fixpoint app_of_package (items : list (string * string)) (bundle_id : string)
    : option string :=
  match items with
  | [] => None
  | (app_name, package) :: rest =>
      if String.eqb package bundle_id then Some app_name
      else app_of_package rest bundle_id
  end.

Section Requests.

(** [requests.post(url, json=payload, ...)] and [requests.get(url, ...)] *)
Variable requests_post : string -> json -> post_reply.
Variable requests_get : string -> reply.

Definition launch_app (wda_url : string) (session_id : option string)
    (app_name : string) : bool :=
  match lookup app_name APP_PACKAGES_IOS with
  | None => false
  | Some bundle_id =>
      accepted
        (requests_post
           (_get_wda_session_url wda_url session_id "wda/apps/launch")
           (JDict [("bundleId", JStr bundle_id)]))
  end.

(** Every exception inside the [try] (a body that is not JSON, a [value]
    that has no [get]) ends in ["System Home"], as the paths that fall
    through do. *)
Definition get_current_app (wda_url : string) : string :=
  match requests_get (rstrip_char "/" wda_url ++ "/wda/activeAppInfo") with
  | Response status_code (Some (JDict data)) _ =>
      if status_code =? 200 then
        match (if existsb (fun kv => String.eqb (fst kv) "value") data
               then dict_lookup "value" data else JDict []) with
        | JDict value =>
            match dict_lookup "bundleId" value with
            | JStr bundle_id =>
                if nonempty bundle_id then
                  match app_of_package APP_PACKAGES_IOS bundle_id with
                  | Some app_name => app_name
                  | None => "System Home"
                  end
                else "System Home"
            | _ => "System Home"
            end
        | _ => "System Home"
        end
      else "System Home"
  | _ => "System Home"
  end.

End Requests.

End IOSActionHandler.

(* ================================================================== *)
(** * executor.py, further methods *)
(* ================================================================== *)

Module IOSExecutorMethods.

Import Executor.

(** Further dictionaries stored in [current_return]. *)
Inductive ret : Type :=
| LongPressDone (x y : Z)
| WaitDone (interval : Z).

(** [long_press_by_index]: what [current_return] becomes ([None] when the
    call leaves it alone) and the result. *)
Definition long_press_by_index (self : IOSExecutor) (index : Z)
    : option ret * (ret + error) :=
  match elem_list self with
  | [] => (None, inr ValueError_empty_list)
  | _ =>
      if negb ((0 <? index) && (index <=? Z.of_nat (List.length (elem_list self))))
      then (None, inr AssertionError_out_of_range)
      else
        match subscript (elem_list self) (index - 1) with
        | None => (None, inr IndexError)
        | Some elem =>
            let '(tl, br) := bbox elem in
            let x_logical := (fst tl + fst br) / 2 in
            let y_logical := (snd tl + snd br) / 2 in
            let '(x, y) := _logical_to_physical x_logical y_logical in
            (Some (LongPressDone x y), inl (LongPressDone x y))
        end
  end.

(** [wait]: the seconds slept and the dictionary returned. *)
Definition wait (interval : Z) : Z * ret :=
  let interval := if (interval <? 0) || (10 <? interval) then 5 else interval in
  (interval, WaitDone interval).

Section Files.

Variable fromstring : string -> option XNode.

(** The file system: the text of the file at a path that exists. *)
Variable read_file : string -> option string.

(** [set_elem_list]: the executor afterwards, or the exception that
    [get_ios_elements] raised. *)
Definition set_elem_list (self : IOSExecutor) (xml_path_or_string : string)
    : res IOSExecutor :=
  let xml_string :=
    match read_file xml_path_or_string with
    | Some content => content
    | None => xml_path_or_string
    end in
  elems <- get_ios_elements fromstring xml_string ;;
  Ok (mkExecutor elems (current_return self) (taps self)).

End Files.

End IOSExecutorMethods.

(* ================================================================== *)
(** * labeling.py, the labels *)
(* ================================================================== *)

Module Drawing.

(** One label put on the image: its text, where, and the colour of its
    background ([pyshine]) or of its rectangle ([cv2]). *)
Record drawn : Type := mkDrawn {
  text : string;
  at_x : Z;
  at_y : Z;
  colour : Z * Z * Z
}.

Section Loop.

(** [int(c * scale_factor)] *)
Variable scaled : Z -> Z.

Variables (record_mode dark_mode : bool).

(** Whether [pyshine] (or [puttext]) was imported. *)
Variable ps : bool.

Definition in_bounds (coord : Z) : bool :=
  (-1000000 <? coord) && (coord <? 1000000).

Definition colour_of (elem : IOSElement) : Z * Z * Z :=
  if record_mode then
    if String.eqb (attrib elem) "clickable" then (250, 0, 0)
    else if String.eqb (attrib elem) "focusable" then (0, 0, 250)
    else (0, 250, 0)
  else if ps then (if dark_mode then (255, 250, 250) else (10, 10, 10))
  else (0, 255, 0).

(** The loop over [elem_list] from the value [count] on.  A box of two
    points passes the checks on its shape; a drawing call is taken to
    succeed (one that raises is caught, and the count goes on). *)
Fixpoint draw_from (count : Z) (elem_list : list IOSElement) : list drawn :=
  match elem_list with
  | [] => []
  | elem :: rest =>
      let left := scaled (fst (fst (bbox elem))) in
      let top := scaled (snd (fst (bbox elem))) in
      let right := scaled (fst (snd (bbox elem))) in
      let bottom := scaled (snd (snd (bbox elem))) in
      if negb (in_bounds left && in_bounds top
               && in_bounds right && in_bounds bottom)
      then draw_from (count + 1) rest
      else if (right <=? left) || (bottom <=? top)
      then draw_from (count + 1) rest
      else
        let offset := if ps then 10 else 0 in
        mkDrawn (str_of_int count)
          ((left + right) / 2 + offset) ((top + bottom) / 2 + offset)
          (colour_of elem)
        :: draw_from (count + 1) rest
  end.

(** The labels [draw_bbox_multi_ios] puts on an image it could read. *)
Definition draw_bbox_multi_ios (elem_list : list IOSElement) : list drawn :=
  draw_from 1 elem_list.

End Loop.

End Drawing.

(* ================================================================== *)
(** * Vocabulary of the properties *)
(* ================================================================== *)

(** The characters of [s] that satisfy [p], in order. *)
Fixpoint sfilter (p : ascii -> bool) (s : string) : string :=
  match s with
  | EmptyString => EmptyString
  | String c s' => if p c then String c (sfilter p s') else sfilter p s'
  end.

Fixpoint all_chars (p : ascii -> bool) (s : string) : bool :=
  match s with
  | EmptyString => true
  | String c s' => p c && all_chars p s'
  end.

Definition is_brace (c : ascii) : bool :=
  Ascii.eqb c "{" || Ascii.eqb c "}".

Definition is_not (c : ascii) (x : ascii) : bool := negb (Ascii.eqb x c).

(** A token of a bounds string: no brace and no comma in it. *)
Definition token (t : string) : bool :=
  all_chars (fun c => negb (is_brace c) && is_not "," c) t.

(** The two encodings of four tokens. *)
Definition brace_form (tx ty tw th : string) : string :=
  "{{" ++ tx ++ ", " ++ ty ++ "}, {" ++ tw ++ ", " ++ th ++ "}}".

Definition comma_form (tx ty tw th : string) : string :=
  tx ++ "," ++ ty ++ "," ++ tw ++ "," ++ th.

(** A parser that knows one document: [xml] parses to [root], any other
    string is rejected. *)
Definition parse_as (xml : string) (root : XNode) : string -> option XNode :=
  fun s => if String.eqb s xml then Some root else None.

(** ** Documents *)

Section XNodeInduction.

Variable P : XNode -> Prop.
Hypothesis step :
  forall tag attrib children, Forall P children -> P (Node tag attrib children).

Fixpoint XNode_ind (n : XNode) : P n :=
  match n with
  | Node tag attrib children =>
      step tag attrib children
        ((fix all (cs : list XNode) : Forall P cs :=
            match cs with
            | [] => Forall_nil P
            | c :: cs' => Forall_cons c (XNode_ind c) (all cs')
            end) children)
  end.

End XNodeInduction.

(** The nodes of a document in the order [traverse] reaches them, each with
    the [path] it is visited under: its ancestors from the root down, and
    the node itself last. *)
Fixpoint preorder (node : XNode) (path : list XNode)
    : list (list XNode * XNode) :=
  let path := (path ++ [node])%list in
  match node with
  | Node _ _ children =>
      (path, node) ::
      (fix each (cs : list XNode) : list (list XNode * XNode) :=
         match cs with
         | [] => []
         | child :: cs' => (preorder child path ++ each cs')%list
         end) children
  end.

(** One [visit] after the other. *)
Fixpoint visit_all (attrib : string) (add_index : bool)
    (items : list (list XNode * XNode)) (elem_list : list IOSElement)
    : res (list IOSElement) :=
  match items with
  | [] => Ok elem_list
  | (path, node) :: rest =>
      elem_list <- visit attrib add_index path node elem_list ;;
      visit_all attrib add_index rest elem_list
  end.

(** The identifier [visit] gives a node it accepts (lines 424-433). *)
Definition uid_of (add_index : bool) (path : list XNode) (node : XNode)
    : res string :=
  elem_id <- get_element_id node ;;
  elem_id <- (if (1 <? List.length path)%nat
              then parent_id <- get_element_id (parent_in path node) ;;
                   Ok (parent_id ++ "_" ++ elem_id)
              else Ok elem_id) ;;
  Ok (if add_index then elem_id ++ "_" ++ get_or node "index" "0"
      else elem_id).

(** The element [visit] makes of an accepted node. *)
Definition element_of (attrib : string) (uid : string) (node : XNode)
    (bbox : BBox) : IOSElement :=
  mkIOSElement uid bbox attrib (tag_of node)
    (get node "name") (get node "label") (get node "identifier").

Definition with_attrib (a : string) (e : IOSElement) : IOSElement :=
  mkIOSElement (uid e) (bbox e) a (element_type e)
    (name e) (label e) (identifier e).

Definition width_of (b : BBox) : Z := fst (snd b) - fst (fst b).
Definition height_of (b : BBox) : Z := snd (snd b) - snd (fst b).

(** [bottom_right.x > top_left.x] and [bottom_right.y > top_left.y] *)
Definition positive_area (b : BBox) : Prop :=
  fst (fst b) < fst (snd b) /\ snd (fst b) < snd (snd b).

(** The centers of [a] and [b] are within the radius [r] of each other /
    farther apart than [r] (Euclidean distance, [r >= 0]). *)
Definition within (r : Z) (a b : BBox) : Prop :=
  dist2 (center a) (center b) <= r * r.

Definition beyond (r : Z) (a b : BBox) : Prop :=
  r * r < dist2 (center a) (center b).

Definition beyondb (r : Z) (a b : BBox) : bool :=
  r * r <? dist2 (center a) (center b).

(** Any two elements of the list are farther apart than [r]. *)
Definition far_apart (r : Z) (l : list IOSElement) : Prop :=
  ForallOrdPairs (fun a b => beyond r (bbox a) (bbox b)) l.

Definition res_map {A B : Type} (f : A -> B) (m : res A) : res B :=
  match m with
  | Ok a => Ok (f a)
  | Raise e => Raise e
  end.

(** [not xml_string or len(xml_string.strip()) == 0] *)
Definition is_blank (xml_string : string) : bool :=
  negb (nonempty xml_string) || (String.length (strip xml_string) =? 0)%nat.

Definition zero_box : BBox := ((0, 0), (0, 0)).

(** Where an element of a pass comes from: a node of the document, visited
    under [path], that the classifier accepts with the element's box. *)
Definition made_from (attrib : string) (add_index : bool)
    (path : list XNode) (node : XNode) (e : IOSElement) : Prop :=
  is_interactive_element node = Ok true
  /\ get_element_bounds node = Ok (Some (bbox e))
  /\ exists u, uid_of add_index path node = Ok u
               /\ e = element_of attrib u node (bbox e).

(** ** Identifiers, in the words of the specification *)

Fixpoint smap (f : ascii -> ascii) (s : string) : string :=
  match s with
  | EmptyString => EmptyString
  | String c s' => String (f c) (smap f s')
  end.

(** Spaces and colons replaced by underscores. *)
Definition underscored (s : string) : string :=
  smap (fun c => if Ascii.eqb c " " || Ascii.eqb c ":" then "_"%char else c) s.

(** The first attribute value that is present and not empty. *)
Fixpoint first_nonempty (l : list (option string)) : option string :=
  match l with
  | [] => None
  | Some (String c r) :: _ => Some (String c r)
  | _ :: l' => first_nonempty l'
  end.

(** [type_identifierOrName] when the node carries a (non-empty) name,
    identifier or label, else [type_width_height]. *)
Definition base_id (node : XNode) (size : Z * Z) : string :=
  match first_nonempty
          [get node "name"; get node "identifier"; get node "label"] with
  | Some t => tag_of node ++ "_" ++ underscored t
  | None =>
      tag_of node ++ "_" ++ str_of_int (fst size) ++ "_"
        ++ str_of_int (snd size)
  end.

(** The size [get_element_id] uses for a node: that of its bounds, or
    [0, 0] when it has none. *)
Definition size_of (node : XNode) (size : Z * Z) : Prop :=
  (exists b, get_element_bounds node = Ok (Some b)
             /\ size = (width_of b, height_of b))
  \/ (get_element_bounds node = Ok None /\ size = (0, 0)).

(** The reported index attribute; the text used when there is none. *)
Definition index_suffix (node : XNode) : string :=
  match get node "index" with
  | Some i => i
  | None => "0"
  end.

(** ** Candidates of a pass *)

Definition qualifies (n : XNode) : bool :=
  match is_interactive_element n with
  | Ok true => true
  | _ => false
  end.

(** The nodes a pass would accept were there no suppression, in traversal
    order. *)
Definition candidates (root : XNode) : list XNode :=
  filter qualifies (map snd (preorder root [])).

Definition box_of (n : XNode) : option BBox :=
  match get_element_bounds n with
  | Ok (Some b) => Some b
  | _ => None
  end.

(** C1 as stated, on one document and its merged list: of two candidates
    whose centers are within the in-pass radius, the later-discovered one
    is not retained. *)
Definition later_of_close_pair_dropped (root : XNode)
    (merged : list IOSElement) : Prop :=
  forall (i j : nat) (ni nj : XNode) (bi bj : BBox),
    (i < j)%nat ->
    nth_error (candidates root) i = Some ni ->
    nth_error (candidates root) j = Some nj ->
    box_of ni = Some bi -> box_of nj = Some bj ->
    within 5 bi bj ->
    ~ In bj (map bbox merged).

(** ** Sample documents *)

Definition button (x y width height : string) : XNode :=
  Node "XCUIElementTypeButton"
    [("x", x); ("y", y); ("width", width); ("height", height)] [].

(** Three buttons in a row, each 4 units right of the one before. *)
Definition row_doc : XNode :=
  Node "XCUIElementTypeApplication" [("name", "Demo")]
    [button "0" "0" "20" "20"; button "4" "0" "20" "20";
     button "8" "0" "20" "20"].

Definition row_xml : string :=
  "<XCUIElementTypeApplication name='Demo'>"
  ++ "<XCUIElementTypeButton x='0' y='0' width='20' height='20'/>"
  ++ "<XCUIElementTypeButton x='4' y='0' width='20' height='20'/>"
  ++ "<XCUIElementTypeButton x='8' y='0' width='20' height='20'/>"
  ++ "</XCUIElementTypeApplication>".

Definition row_elements : list IOSElement :=
  [ mkIOSElement "XCUIElementTypeApplication_Demo_XCUIElementTypeButton_20_20_0"
      ((0, 0), (20, 20)) "clickable" "XCUIElementTypeButton" None None None;
    mkIOSElement "XCUIElementTypeApplication_Demo_XCUIElementTypeButton_20_20_0"
      ((8, 0), (28, 20)) "clickable" "XCUIElementTypeButton" None None None ].

(** A button whose abscissa is reported as infinite, next to a sound one. *)
Definition overflow_doc : XNode :=
  Node "XCUIElementTypeApplication" [("name", "Demo")]
    [button "0" "0" "20" "20"; button "inf" "0" "20" "20"].

Definition overflow_xml : string :=
  "<XCUIElementTypeApplication name='Demo'>"
  ++ "<XCUIElementTypeButton x='0' y='0' width='20' height='20'/>"
  ++ "<XCUIElementTypeButton x='inf' y='0' width='20' height='20'/>"
  ++ "</XCUIElementTypeApplication>".

(** ** The source normalizer *)

(** C8 as stated, for the text branch: a body that does not decode as JSON
    and is not blank is returned, whatever it looks like. *)
Definition raw_body_returned (requests_get : string -> reply)
    (wda_url : string) : Prop :=
  forall text,
    requests_get (rstrip_char "/" wda_url ++ "/source") = Response 200 None text ->
    nonempty (strip text) = true ->
    get_page_source requests_get wda_url None = Some (strip text).

(** A server that answers every request with a plain-text body. *)
Definition plain_text_server (url : string) : reply :=
  Response 200 None "Service Unavailable".

(** ** Coordinates *)

(** The claimed tolerance at one point: the physical point [(x, y)] taken
    to logical coordinates and back lands within [S - 1] of itself in each
    component. *)
Definition round_trip_within_tolerance (x y : Z) : Prop :=
  exists lx ly,
    _physical_to_logical x y = Ok (lx, ly) /\
    Z.abs (fst (_logical_to_physical lx ly) - x) <= SCALE_FACTOR - 1 /\
    Z.abs (snd (_logical_to_physical lx ly) - y) <= SCALE_FACTOR - 1.

(** ** Further vocabulary *)

(** [out] is made of elements of [l], in the order of [l], each related to
    its source by [R]. *)
Inductive picks {A B : Type} (R : A -> B -> Prop) : list A -> list B -> Prop :=
| picks_nil : picks R [] []
| picks_skip (a : A) (l : list A) (out : list B) :
    picks R l out -> picks R (a :: l) out
| picks_take (a : A) (b : B) (l : list A) (out : list B) :
    R a b -> picks R l out -> picks R (a :: l) (b :: out).

(** How often the character [c] occurs in [s]. *)
Fixpoint count_char (c : ascii) (s : string) : nat :=
  match s with
  | EmptyString => O
  | String a s' => if Ascii.eqb a c then S (count_char c s') else count_char c s'
  end.

(** The point at the center of a box lies in the box, right and bottom
    edges apart. *)
Definition inside (p : Point) (b : BBox) : Prop :=
  fst (fst b) <= fst p < fst (snd b) /\ snd (fst b) <= snd p < snd (snd b).

(** [tag] contains one of the interactive type names. *)
Definition interactive_type (element : XNode) : bool :=
  existsb (fun interactive_type => contains interactive_type (tag_of element))
          interactive_types.

(** What one reply contributes to [get_page_source]: the source it makes
    the function return, [None] when the loop goes on. *)
Definition answer_of (r : reply) : option string :=
  match r with
  | Response status_code body_json text =>
      if status_code =? 200 then source_of_200 body_json text else None
  | _ => None
  end.

(* ================================================================== *)
(** * Coordinate transforms (actions.py) *)
(* ================================================================== *)

Section Rounding.

(** Rounding a number of thirds: the result stays within the same unit as
    soon as the scale [2^s] is at least 2. *)
Lemma round_half_even_thirds (n s : Z) :
  0 <= n -> 1 <= s ->
  round_half_even (n * 2 ^ s) 3 / 2 ^ s = n / 3.
Proof.
  intros Hn Hs.
  assert (HP : 2 <= 2 ^ s).
  { change 2 with (2 ^ 1) at 1. apply Z.pow_le_mono_r; lia. }
  set (P := 2 ^ s) in *.
  pose proof (Z.div_mod n 3 ltac:(lia)) as Hdm.
  pose proof (Z.mod_pos_bound n 3 ltac:(lia)) as Hb.
  set (a := n / 3) in *. set (b := n mod 3) in *.
  pose proof (Z.div_mod (n * P) 3 ltac:(lia)) as HX.
  pose proof (Z.mod_pos_bound (n * P) 3 ltac:(lia)) as HXb.
  unfold round_half_even.
  set (q := n * P / 3) in *. set (r := (n * P) mod 3) in *.
  assert (Hlow : a * P <= q) by nia.
  assert (Hhigh : 3 * q + r < 3 * (a * P) + 3 * P - P + 1) by nia.
  symmetry. apply Z.div_unique with
    (r := (if 2 * r <? 3 then q
           else if 3 <? 2 * r then q + 1
           else if Z.even q then q else q + 1) - a * P).
  - left. destruct (2 * r <? 3) eqn:E1; [apply Z.ltb_lt in E1; nia|].
    apply Z.ltb_ge in E1.
    destruct (3 <? 2 * r) eqn:E2; [apply Z.ltb_lt in E2; nia|].
    apply Z.ltb_ge in E2. lia.
  - lia.
Qed.

Lemma floor_log2_thirds_bound (n : Z) :
  0 < n < 3 * 2 ^ 52 -> floor_log2_frac n 3 <= 51.
Proof.
  intros [Hpos Hlt]. unfold floor_log2_frac.
  change (Z.log2 3) with 1.
  assert (Hl : Z.log2 n < 54).
  { apply Z.log2_lt_pow2; [lia|]. 
    change (2 ^ 54) with (4 * 2 ^ 52). lia. }
  destruct (0 <=? Z.log2 n - 1) eqn:E0.
  - destruct (Z.eq_dec (Z.log2 n) 53) as [E53|N53].
    + rewrite E53. change (53 - 1) with 52.
      assert (Hb : (n <? 3 * 2 ^ 52) = true) by (apply Z.ltb_lt; lia).
      rewrite Hb. lia.
    + destruct (n <? 3 * 2 ^ (Z.log2 n - 1)); lia.
  - apply Z.leb_gt in E0.
    destruct (n * 2 ^ (- (Z.log2 n - 1)) <? 3); lia.
Qed.

(** Below [3 * 2^52] in absolute value, [int(a / 3)] is the quotient of the
    integer division that truncates toward zero. *)
Lemma int_truediv_3_small (a : Z) :
  Z.abs a < 3 * 2 ^ 52 -> int_truediv a 3 = Ok (Z.quot a 3).
Proof.
  intros Ha. unfold int_truediv, truediv.
  change (3 =? 0) with false. change (3 <? 0) with false.
  change (Z.abs 3) with 3. cbv iota.
  rewrite xorb_false_r.
  unfold round64.
  destruct (Z.abs a =? 0) eqn:E0.
  - apply Z.eqb_eq in E0. assert (a = 0) by lia. subst a.
    reflexivity.
  - apply Z.eqb_neq in E0.
    pose proof (floor_log2_thirds_bound (Z.abs a) ltac:(lia)) as He.
    set (e := floor_log2_frac (Z.abs a) 3) in *.
    assert (Hs : (0 <=? 52 - e) = true) by (apply Z.leb_le; lia).
    rewrite Hs.
    assert (H1 : (1024 <=? e) = false) by (apply Z.leb_gt; lia).
    assert (H2 : (e =? 1023) = false) by (apply Z.eqb_neq; lia).
    rewrite H1, H2. cbn [orb andb bind int_of_float].
    assert (Hneg : (0 <=? - (52 - e)) = false) by (apply Z.leb_gt; lia).
    rewrite Hneg. rewrite Z.opp_involutive.
    rewrite round_half_even_thirds by lia.
    f_equal.
    destruct (a <? 0) eqn:En.
    + apply Z.ltb_lt in En.
      rewrite <- (Z.opp_involutive a) at 2.
      rewrite Z.quot_opp_l by lia.
      rewrite Z.quot_div_nonneg by lia.
      replace (Z.abs a) with (- a) by lia. reflexivity.
    + apply Z.ltb_ge in En.
      rewrite Z.quot_div_nonneg by lia.
      replace (Z.abs a) with a by lia. reflexivity.
Qed.

End Rounding.

(** C4, as stated, fails: at the physical abscissa [3 * (2^53 + 1)] the
    quotient by 3 is not a binary64 number, [x / 3] rounds down to [2^53],
    and the round trip returns [3 * 2^53], three units away, more than
    [S - 1 = 2].  The same happens to truncation at [3 * 2^52 + 2], where
    [int(x / 3)] is one more than the truncated quotient. *)
Lemma round_trip_tolerance_counterexample :
  ~ round_trip_within_tolerance 27021597764222979 0
  /\ _physical_to_logical 27021597764222979 0 = Ok (9007199254740992, 0)
  /\ _logical_to_physical 9007199254740992 0 = (27021597764222976, 0)
  /\ _physical_to_logical 13510798882111490 0 = Ok (4503599627370497, 0)
  /\ Z.quot 13510798882111490 3 = 4503599627370496.
Proof.
  assert (E : _physical_to_logical 27021597764222979 0
              = Ok (9007199254740992, 0)) by (vm_compute; reflexivity).
  split; [|split; [exact E|split; [|split]]].
  - intros (lx & ly & H & Hx & _).
    rewrite E in H. injection H as <- <-.
    vm_compute in Hx. apply Hx. reflexivity.
  - vm_compute; reflexivity.
  - vm_compute; reflexivity.
  - vm_compute; reflexivity.
Qed.

(** C4 (amended): with the default scale factor [S = 3], for physical
    coordinates below [3 * 2^52] in absolute value [_physical_to_logical]
    is the integer division by [S] that truncates toward zero and
    [_logical_to_physical] the multiplication by [S]; for such [x, y >= 0]
    the round trip never exceeds the point it started from and falls short
    of it by at most [S - 1] in each component. *)
Theorem coordinate_round_trip (x y : Z) :
  Z.abs x < 3 * 2 ^ 52 -> Z.abs y < 3 * 2 ^ 52 ->
  SCALE_FACTOR = 3
  /\ _physical_to_logical x y = Ok (Z.quot x SCALE_FACTOR, Z.quot y SCALE_FACTOR)
  /\ (forall lx ly, _logical_to_physical lx ly = (lx * SCALE_FACTOR, ly * SCALE_FACTOR))
  /\ (0 <= x -> 0 <= y ->
      exists lx ly px py,
        _physical_to_logical x y = Ok (lx, ly)
        /\ _logical_to_physical lx ly = (px, py)
        /\ 0 <= x - px <= SCALE_FACTOR - 1
        /\ 0 <= y - py <= SCALE_FACTOR - 1
        /\ round_trip_within_tolerance x y).
Proof.
  intros Hx Hy.
  assert (E : _physical_to_logical x y
              = Ok (Z.quot x SCALE_FACTOR, Z.quot y SCALE_FACTOR)).
  { unfold _physical_to_logical, SCALE_FACTOR.
    rewrite (int_truediv_3_small x Hx), (int_truediv_3_small y Hy).
    reflexivity. }
  split; [reflexivity|]. split; [exact E|]. split; [reflexivity|].
  intros Hx0 Hy0.
  assert (Bx : 0 <= x - Z.quot x SCALE_FACTOR * SCALE_FACTOR <= SCALE_FACTOR - 1).
  { unfold SCALE_FACTOR. rewrite Z.quot_div_nonneg by lia.
    pose proof (Z.div_mod x 3 ltac:(lia)).
    pose proof (Z.mod_pos_bound x 3 ltac:(lia)). lia. }
  assert (By : 0 <= y - Z.quot y SCALE_FACTOR * SCALE_FACTOR <= SCALE_FACTOR - 1).
  { unfold SCALE_FACTOR. rewrite Z.quot_div_nonneg by lia.
    pose proof (Z.div_mod y 3 ltac:(lia)).
    pose proof (Z.mod_pos_bound y 3 ltac:(lia)). lia. }
  exists (Z.quot x SCALE_FACTOR), (Z.quot y SCALE_FACTOR),
         (Z.quot x SCALE_FACTOR * SCALE_FACTOR),
         (Z.quot y SCALE_FACTOR * SCALE_FACTOR).
  split; [exact E|]. split; [reflexivity|].
  split; [exact Bx|]. split; [exact By|].
  exists (Z.quot x SCALE_FACTOR), (Z.quot y SCALE_FACTOR).
  split; [exact E|]. unfold _logical_to_physical. cbn [fst snd].
  unfold SCALE_FACTOR in *. split; lia.
Qed.

Lemma coordinate_round_trip_witness :
  _physical_to_logical 1179 2556 = Ok (393, 852)
  /\ _physical_to_logical (-7) 100 = Ok (-2, 33)
  /\ round_trip_within_tolerance 100 200.
Proof.
  pose proof (coordinate_round_trip 1179 2556 ltac:(vm_compute; reflexivity)
                ltac:(vm_compute; reflexivity)) as (_ & H1 & _).
  pose proof (coordinate_round_trip (-7) 100 ltac:(vm_compute; reflexivity)
                ltac:(vm_compute; reflexivity)) as (_ & H2 & _).
  pose proof (coordinate_round_trip 100 200 ltac:(vm_compute; reflexivity)
                ltac:(vm_compute; reflexivity)) as (_ & _ & _ & H3).
  destruct (H3 ltac:(lia) ltac:(lia)) as (? & ? & ? & ? & _ & _ & _ & _ & H4).
  split; [exact H1|]. split; [exact H2|]. exact H4.
Defined.

(* ================================================================== *)
(** * Strings *)
(* ================================================================== *)

Section StringFacts.

Lemma sfilter_app (p : ascii -> bool) (s t : string) :
  sfilter p (s ++ t) = sfilter p s ++ sfilter p t.
Proof.
  induction s as [|c s IH]; cbn; [reflexivity|].
  rewrite IH. destruct (p c); reflexivity.
Qed.

Lemma sfilter_all (p : ascii -> bool) (s : string) :
  all_chars p s = true -> sfilter p s = s.
Proof.
  induction s as [|c s IH]; cbn; [reflexivity|].
  intros H. apply andb_true_iff in H as [Hc Hs].
  rewrite Hc, IH by assumption. reflexivity.
Qed.

Lemma sfilter_sfilter (p q : ascii -> bool) (s : string) :
  sfilter p (sfilter q s) = sfilter (fun c => q c && p c) s.
Proof.
  induction s as [|c s IH]; cbn; [reflexivity|].
  destruct (q c); cbn; [destruct (p c)|]; rewrite ?IH; reflexivity.
Qed.

Lemma sfilter_ext (p q : ascii -> bool) (s : string) :
  (forall c, p c = q c) -> sfilter p s = sfilter q s.
Proof.
  intros E. induction s as [|c s IH]; cbn; [reflexivity|].
  rewrite E, IH. reflexivity.
Qed.

Lemma all_chars_app (p : ascii -> bool) (s t : string) :
  all_chars p (s ++ t) = all_chars p s && all_chars p t.
Proof.
  induction s as [|c s IH]; cbn; [reflexivity|].
  rewrite IH, andb_assoc. reflexivity.
Qed.

Lemma all_chars_weaken (p q : ascii -> bool) (s : string) :
  (forall c, p c = true -> q c = true) ->
  all_chars p s = true -> all_chars q s = true.
Proof.
  intros W. induction s as [|c s IH]; cbn; [reflexivity|].
  intros H. apply andb_true_iff in H as [Hc Hs].
  rewrite (W _ Hc), IH by assumption. reflexivity.
Qed.

(** Replacing one character by nothing deletes its occurrences. *)
Lemma replace_char_empty (c : ascii) (s : string) :
  replace (String c "") "" s = sfilter (is_not c) s.
Proof.
  unfold replace.
  induction s as [|a s IH]; cbn -[ascii_dec]; [reflexivity|].
  unfold is_not at 1.
  destruct (ascii_dec c a) as [->|N].
  - rewrite Ascii.eqb_refl. cbn. destruct s; cbn; exact IH.
  - assert (E : Ascii.eqb a c = false).
    { apply Ascii.eqb_neq. congruence. }
    rewrite E. cbn. rewrite IH. reflexivity.
Qed.

Lemma replace_from_O (old new : string) (a : ascii) (s : string) :
  replace_from old new 0 (String a s)
  = if prefix old (String a s)
    then new ++ replace_from old new (String.length old - 1) s
    else String a (replace_from old new 0 s).
Proof. reflexivity. Qed.

Lemma replace_from_S (old new : string) (k : nat) (a : ascii) (s : string) :
  replace_from old new (S k) (String a s) = replace_from old new k s.
Proof. reflexivity. Qed.

Lemma prefix_double (c a : ascii) (s : string) :
  prefix (String c (String c "")) (String a s) = true ->
  a = c /\ exists s', s = String c s'.
Proof.
  cbn -[ascii_dec]. destruct (ascii_dec c a) as [<-|N]; [|discriminate].
  destruct s as [|b s]; cbn -[ascii_dec]; [discriminate|].
  destruct (ascii_dec c b) as [<-|N]; [|discriminate].
  intros _. split; [reflexivity|]. eexists; reflexivity.
Qed.

(** Replacing a doubled character by nothing deletes only occurrences of
    that character. *)
Lemma sfilter_replace_double (p : ascii -> bool) (c : ascii) :
  p c = false ->
  forall (s : string) (k : nat),
    (k = 0%nat \/ (k = 1%nat /\ exists s', s = String c s')) ->
    sfilter p (replace_from (String c (String c "")) "" k s) = sfilter p s.
Proof.
  intros Hc. induction s as [|a s IH]; intros k Hk; [destruct k; reflexivity|].
  destruct Hk as [->|[-> [s' E]]].
  - rewrite replace_from_O.
    destruct (prefix (String c (String c "")) (String a s)) eqn:P.
    + apply prefix_double in P as [-> [s' ->]].
      change ("" ++ ?x) with x. cbn [String.length Nat.sub].
      rewrite IH by (right; split; [reflexivity|eexists; reflexivity]).
      cbn [sfilter]. rewrite Hc. reflexivity.
    + cbn [sfilter]. rewrite IH by (left; reflexivity). reflexivity.
  - injection E as -> ->. rewrite replace_from_S. cbn [sfilter]. rewrite Hc.
    apply IH. left; reflexivity.
Qed.

Lemma contains_absent (c : ascii) (r s : string) :
  all_chars (is_not c) s = true -> contains (String c r) s = false.
Proof.
  induction s as [|a s IH]; cbn -[ascii_dec]; [reflexivity|].
  intros H. apply andb_true_iff in H as [Ha Hs].
  unfold is_not in Ha. apply negb_true_iff in Ha.
  apply Ascii.eqb_neq in Ha.
  destruct (ascii_dec c a) as [->|N]; [congruence|].
  cbn. apply IH, Hs.
Qed.

Lemma split_app_sep (sep : ascii) (t r : string) :
  all_chars (is_not sep) t = true ->
  split sep (t ++ String sep r) = t :: split sep r.
Proof.
  induction t as [|a t IH]; cbn.
  - intros _. rewrite Ascii.eqb_refl. reflexivity.
  - intros H. apply andb_true_iff in H as [Ha Ht].
    unfold is_not in Ha. apply negb_true_iff in Ha. rewrite Ha.
    rewrite IH by assumption. reflexivity.
Qed.

Lemma split_no_sep (sep : ascii) (t : string) :
  all_chars (is_not sep) t = true -> split sep t = [t].
Proof.
  induction t as [|a t IH]; cbn; [reflexivity|].
  intros H. apply andb_true_iff in H as [Ha Ht].
  unfold is_not in Ha. apply negb_true_iff in Ha. rewrite Ha.
  rewrite IH by assumption. reflexivity.
Qed.

Lemma append_assoc (a b c : string) : (a ++ b) ++ c = a ++ (b ++ c).
Proof.
  induction a as [|x a IH]; cbn; [reflexivity|]. rewrite IH. reflexivity.
Qed.

End StringFacts.

(* ================================================================== *)
(** * The bounds decoder *)
(* ================================================================== *)

Section BoundsDecoder.

(** The four replacements of the brace format delete every brace and
    nothing else. *)
Lemma strip_braces_sfilter (s : string) :
  strip_braces s = sfilter (fun c => negb (is_brace c)) s.
Proof.
  unfold strip_braces.
  change "}" with (String "}" "") at 1.
  change "{" with (String "{" "") at 1.
  rewrite !replace_char_empty, sfilter_sfilter.
  unfold replace.
  rewrite (sfilter_replace_double _ "}") by (reflexivity || (left; reflexivity)).
  rewrite (sfilter_replace_double _ "{") by (reflexivity || (left; reflexivity)).
  apply sfilter_ext. intros c. unfold is_not, is_brace.
  destruct (Ascii.eqb c "{"), (Ascii.eqb c "}"); reflexivity.
Qed.

(** In the brace format the decoder reads the string with its braces
    deleted as the simple format. *)
Lemma parse_bounds_brace (s : string) :
  contains "{{" s = true ->
  parse_bounds s = try_except (parse_simple (strip_braces s)) any_exception (Ok None).
Proof.
  intros H. unfold parse_bounds. rewrite H.
  assert (N : nonempty s = true) by (destruct s; [discriminate H|reflexivity]).
  rewrite N. cbn [negb].
  unfold parse_simple.
  destruct (4 <=? List.length (split "," (strip_braces s)))%nat; reflexivity.
Qed.

(** [parse_bounds] returns; it never raises. *)
Lemma parse_bounds_never_raises (s : string) :
  exists r, parse_bounds s = Ok r.
Proof.
  unfold parse_bounds.
  destruct (negb (nonempty s)); [eexists; reflexivity|].
  unfold try_except, any_exception.
  match goal with |- exists r, match ?m with _ => _ end = _ => destruct m end;
    eexists; reflexivity.
Qed.

Lemma token_no_brace (t : string) :
  token t = true -> all_chars (fun c => negb (is_brace c)) t = true.
Proof.
  apply all_chars_weaken. intros c H.
  apply andb_true_iff in H as [H _]. exact H.
Qed.

Lemma token_no_comma (t : string) :
  token t = true -> all_chars (is_not ",") t = true.
Proof.
  apply all_chars_weaken. intros c H.
  apply andb_true_iff in H as [_ H]. exact H.
Qed.

Lemma token_no_open (t : string) :
  token t = true -> all_chars (is_not "{") t = true.
Proof.
  apply all_chars_weaken. intros c H.
  apply andb_true_iff in H as [H _]. unfold is_brace in H.
  unfold is_not. destruct (Ascii.eqb c "{"); [discriminate H|reflexivity].
Qed.

Lemma strip_leading_space (t : string) : strip (" " ++ t) = strip t.
Proof. reflexivity. Qed.

Lemma parts_of_comma_form (tx ty tw th : string) :
  token tx = true -> token ty = true -> token tw = true -> token th = true ->
  split "," (comma_form tx ty tw th) = [tx; ty; tw; th].
Proof.
  intros Hx Hy Hw Hh. unfold comma_form.
  cbn [append].
  rewrite (split_app_sep "," tx), (split_app_sep "," ty),
    (split_app_sep "," tw), split_no_sep
    by (apply token_no_comma; assumption).
  reflexivity.
Qed.

Lemma append_empty_r (s : string) : s ++ "" = s.
Proof. induction s as [|c s IH]; cbn; [reflexivity|]. rewrite IH. reflexivity. Qed.

Lemma spaced_token_no_comma (t : string) :
  token t = true -> all_chars (is_not ",") (String " " t) = true.
Proof. intros H. cbn. apply token_no_comma, H. Qed.

Lemma parts_of_brace_form (tx ty tw th : string) :
  token tx = true -> token ty = true -> token tw = true -> token th = true ->
  split "," (strip_braces (brace_form tx ty tw th))
  = [tx; " " ++ ty; " " ++ tw; " " ++ th].
Proof.
  intros Hx Hy Hw Hh. rewrite strip_braces_sfilter. unfold brace_form.
  rewrite !sfilter_app.
  rewrite !(sfilter_all _ _ (token_no_brace _ Hx)),
          !(sfilter_all _ _ (token_no_brace _ Hy)),
          !(sfilter_all _ _ (token_no_brace _ Hw)),
          !(sfilter_all _ _ (token_no_brace _ Hh)).
  cbn [sfilter is_brace Ascii.eqb Bool.eqb orb negb append].
  rewrite append_empty_r.
  rewrite (split_app_sep "," tx) by (apply token_no_comma; assumption).
  change (String " " (ty ++ ?r)) with (String " " ty ++ r).
  rewrite (split_app_sep "," (String " " ty)) by (apply spaced_token_no_comma; assumption).
  change (String " " (tw ++ ?r)) with (String " " tw ++ r).
  rewrite (split_app_sep "," (String " " tw)) by (apply spaced_token_no_comma; assumption).
  rewrite split_no_sep by (apply spaced_token_no_comma; assumption).
  reflexivity.
Qed.

End BoundsDecoder.

(** C5: the bounds decoder gives the same rectangle for both encodings of
    the same four numbers.  For any four tokens (no brace, no comma) that
    [int(float(.strip()))] reads as [x], [y], [width] and [height], the
    nested brace form [{{x, y}, {width, height}}] and the flat comma form
    [x,y,width,height] both decode to [((x, y), (x+width, y+height))]; the
    tokens [10], [20], [30], [40] give [((10,20),(40,60))] both ways. *)
Theorem parse_bounds_encodings_agree (tx ty tw th : string) (x y width height : Z) :
  token tx = true -> token ty = true -> token tw = true -> token th = true ->
  int_float (strip tx) = Ok x ->
  int_float (strip ty) = Ok y ->
  int_float (strip tw) = Ok width ->
  int_float (strip th) = Ok height ->
  parse_bounds (brace_form tx ty tw th)
    = Ok (Some ((x, y), (x + width, y + height)))
  /\ parse_bounds (comma_form tx ty tw th)
    = Ok (Some ((x, y), (x + width, y + height)))
  /\ parse_bounds "{{10, 20}, {30, 40}}" = Ok (Some ((10, 20), (40, 60)))
  /\ parse_bounds "10,20,30,40" = Ok (Some ((10, 20), (40, 60))).
Proof.
  intros Hx Hy Hw Hh Ex Ey Ew Eh.
  split; [|split; [|split; vm_compute; reflexivity]].
  - rewrite parse_bounds_brace by (destruct tx; reflexivity).
    unfold parse_simple.
    rewrite parts_of_brace_form by assumption.
    cbn [List.length Nat.leb nth bounds_of_parts].
    unfold bounds_of_parts. cbn [nth].
    rewrite !strip_leading_space, Ex, Ey, Ew, Eh. reflexivity.
  - unfold parse_bounds.
    assert (N : nonempty (comma_form tx ty tw th) = true).
    { unfold comma_form. destruct tx; reflexivity. }
    assert (C : contains "{{" (comma_form tx ty tw th) = false).
    { apply contains_absent. unfold comma_form.
      rewrite !all_chars_app.
      rewrite (token_no_open tx), (token_no_open ty), (token_no_open tw),
        (token_no_open th) by assumption.
      reflexivity. }
    rewrite N, C. cbn [negb]. unfold parse_simple.
    rewrite parts_of_comma_form by assumption.
    unfold bounds_of_parts. cbn [List.length Nat.leb nth].
    rewrite Ex, Ey, Ew, Eh. reflexivity.
Qed.

Lemma parse_bounds_encodings_agree_witness :
  parse_bounds (brace_form "10" "20" "30" "40")
    = Ok (Some ((10, 20), (10 + 30, 20 + 40)))
  /\ parse_bounds (comma_form "10.9" "-20" "3e1" " 40 ")
    = Ok (Some ((10, -20), (10 + 30, -20 + 40))).
Proof.
  split.
  - apply (parse_bounds_encodings_agree "10" "20" "30" "40" 10 20 30 40);
      vm_compute; reflexivity.
  - apply (parse_bounds_encodings_agree "10.9" "-20" "3e1" " 40 " 10 (-20) 30 40);
      vm_compute; reflexivity.
Defined.

(* ================================================================== *)
(** * Traversal, suppression and merge (hierarchy.py) *)
(* ================================================================== *)

Section Traversal.

Lemma visit_all_app a i xs ys l :
  visit_all a i (xs ++ ys) l = (l' <- visit_all a i xs l ;; visit_all a i ys l').
Proof.
  revert l. induction xs as [|[p n] xs IH]; intros l; cbn [visit_all app bind].
  - reflexivity.
  - destruct (visit a i p n l) as [l1|e]; cbn [bind]; [apply IH|reflexivity].
Qed.

(** The recursive traversal is the visits of the nodes in preorder. *)
Lemma traverse_preorder a i node :
  forall path l, traverse a i node path l = visit_all a i (preorder node path) l.
Proof.
  induction node as [tag attrs children IH] using XNode_ind.
  intros path l. cbn [traverse preorder visit_all].
  destruct (visit a i (path ++ [Node tag attrs children]) (Node tag attrs children) l)
    as [l1|e]; cbn [bind]; [|reflexivity].
  generalize (path ++ [Node tag attrs children])%list as p. intros p.
  revert l1. induction IH as [|c cs Hc _ IHcs]; intros l1.
  - reflexivity.
  - rewrite visit_all_app, <- Hc.
    destruct (traverse a i c p l1) as [l2|e]; cbn [bind]; [apply IHcs|reflexivity].
Qed.

(** An interactive node has bounds, of positive width and height. *)
Lemma is_interactive_true (n : XNode) :
  is_interactive_element n = Ok true ->
  exists b, get_element_bounds n = Ok (Some b)
            /\ 0 < width_of b /\ 0 < height_of b.
Proof.
  unfold is_interactive_element.
  destruct (negb _); [discriminate|].
  destruct (String.eqb (get_or n "enabled" "true") "false"); [discriminate|].
  destruct (String.eqb (get_or n "visible" "true") "false"); [discriminate|].
  destruct (get_element_bounds n) as [[[[x1 y1] [x2 y2]]|]|e]; cbn [bind];
    try discriminate.
  destruct ((x2 - x1 <=? 0) || (y2 - y1 <=? 0)) eqn:E; [discriminate|].
  intros _. apply orb_false_iff in E as [Ew Eh].
  apply Z.leb_gt in Ew, Eh.
  eexists; split; [reflexivity|]. unfold width_of, height_of; cbn. lia.
Qed.

(** When the loop over the list returns, it says whether some element is
    within the radius. *)
Lemma close_to_spec (c : Point) (r : Z) (l : list IOSElement) (b : bool) :
  close_to c r l = Ok b ->
  b = existsb (fun e => dist2 c (center (bbox e)) <=? r * r) l.
Proof.
  revert b. induction l as [|e l IH]; intros b; cbn [close_to existsb].
  - intros H; injection H as <-; reflexivity.
  - unfold dist_le.
    destruct (int_too_large_for_float _); cbn [bind]; [discriminate|].
    destruct (dist2 c (center (bbox e)) <=? r * r); cbn [orb].
    + intros H; injection H as <-; reflexivity.
    + apply IH.
Qed.

(** The three ways a visit returns: the node is not interactive; it is,
    and is too close to an element of the list; it is, and is appended. *)
Lemma visit_cases a i path node l l' :
  visit a i path node l = Ok l' ->
  (is_interactive_element node = Ok false /\ l' = l)
  \/ (exists b,
        is_interactive_element node = Ok true
        /\ get_element_bounds node = Ok (Some b)
        /\ close_to (center b) 5 l = Ok true /\ l' = l)
  \/ (exists b u,
        is_interactive_element node = Ok true
        /\ get_element_bounds node = Ok (Some b)
        /\ close_to (center b) 5 l = Ok false
        /\ uid_of i path node = Ok u
        /\ l' = (l ++ [element_of a u node b])%list).
Proof.
  unfold visit.
  destruct (is_interactive_element node) as [[|]|e] eqn:Ei; cbn [bind];
    try discriminate.
  2:{ intros H; injection H as <-. left; split; reflexivity. }
  destruct (is_interactive_true node Ei) as (b & Eb & _).
  rewrite Eb; cbn [bind].
  destruct (close_to (center b) 5 l) as [[|]|e] eqn:Ec; cbn [bind];
    try discriminate.
  - intros H; injection H as <-. right; left. exists b. repeat split; auto.
  - unfold uid_of.
    destruct (get_element_id node) as [id0|e]; cbn [bind]; try discriminate.
    destruct (1 <? List.length path)%nat.
    + destruct (get_element_id (parent_in path node)) as [idp|e]; cbn [bind];
        try discriminate.
      intros H; injection H as <-. right; right.
      exists b. eexists. repeat split; auto.
    + cbn [bind]. intros H; injection H as <-. right; right.
      exists b. eexists. repeat split; auto.
Qed.

(** What every visit preserves, the pass preserves. *)
Lemma visit_all_invariant (P : list IOSElement -> Prop) a i :
  (forall path node l l', P l -> visit a i path node l = Ok l' -> P l') ->
  forall items l l', P l -> visit_all a i items l = Ok l' -> P l'.
Proof.
  intros Hv. induction items as [|[p n] items IH]; intros l l' Hl; cbn [visit_all].
  - intros H; injection H as <-; exact Hl.
  - destruct (visit a i p n l) as [l1|e] eqn:E; cbn [bind]; [|discriminate].
    apply IH. eapply Hv; eauto.
Qed.

(** A pass only appends, and what it appends is made from the nodes it
    visits. *)
Lemma visit_all_origin a i items :
  forall l l', visit_all a i items l = Ok l' ->
  exists added,
    l' = (l ++ added)%list
    /\ forall e, In e added ->
         exists path node, In (path, node) items /\ made_from a i path node e.
Proof.
  induction items as [|[p n] items IH]; intros l l'; cbn [visit_all].
  - intros H; injection H as <-. exists []. rewrite app_nil_r.
    split; [reflexivity|]. intros e [].
  - destruct (visit a i p n l) as [l1|e] eqn:E; cbn [bind]; [|discriminate].
    intros H. destruct (IH _ _ H) as (added & -> & Hadd).
    apply visit_cases in E as [[_ ->]|[(b & _ & _ & _ & ->)|(b & u & Hi & Hb & _ & Hu & ->)]].
    + exists added. split; [reflexivity|].
      intros e He. destruct (Hadd e He) as (path & node & Hin & Hm).
      exists path, node. split; [right; exact Hin|exact Hm].
    + exists added. split; [reflexivity|].
      intros e He. destruct (Hadd e He) as (path & node & Hin & Hm).
      exists path, node. split; [right; exact Hin|exact Hm].
    + exists (element_of a u n b :: added). rewrite <- app_assoc.
      split; [reflexivity|].
      intros e [<-|He].
      * exists p, n. split; [left; reflexivity|].
        repeat split; auto. exists u. split; [exact Hu|reflexivity].
      * destruct (Hadd e He) as (path & node & Hin & Hm).
        exists path, node. split; [right; exact Hin|exact Hm].
Qed.

End Traversal.

Section Passes.

Variable fromstring : string -> option XNode.

Lemma traverse_ios_tree_cases xml l0 a i l :
  traverse_ios_tree fromstring xml l0 a i = Ok l ->
  (fromstring xml = None /\ l = l0)
  \/ exists root, fromstring xml = Some root
                  /\ visit_all a i (preorder root []) l0 = Ok l.
Proof.
  unfold traverse_ios_tree. destruct (fromstring xml) as [root|].
  - rewrite traverse_preorder. intros H. right. exists root. auto.
  - intros H; injection H as <-. left; auto.
Qed.

(** The second loop of the merge appends the focusable elements that are
    farther than 10 from every clickable element, in order. *)
Lemma merge_focusable_spec cl fl :
  forall acc out,
    merge_focusable cl fl acc = Ok out ->
    out = (acc ++ filter (fun f => forallb (fun c => beyondb 10 (bbox f) (bbox c)) cl) fl)%list.
Proof.
  induction fl as [|f fl IH]; intros acc out; cbn [merge_focusable filter].
  - intros H; injection H as <-. rewrite app_nil_r. reflexivity.
  - destruct (close_to (center (bbox f)) 10 cl) as [b|e] eqn:E; cbn [bind];
      [|discriminate].
    intros H. apply IH in H. apply close_to_spec in E.
    assert (Eb : forallb (fun c => beyondb 10 (bbox f) (bbox c)) cl = negb b).
    { rewrite E. clear. induction cl as [|c cl IHc]; cbn [forallb existsb negb]; [reflexivity|].
      rewrite negb_orb, <- IHc. f_equal.
      unfold beyondb. rewrite Z.ltb_antisym. reflexivity. }
    rewrite Eb. destruct b; cbn [negb].
    + exact H.
    + rewrite H, <- app_assoc. reflexivity.
Qed.

Lemma get_ios_elements_cases xml out :
  get_ios_elements fromstring xml = Ok out ->
  (is_blank xml = true /\ out = [])
  \/ exists cl fl,
       is_blank xml = false
       /\ traverse_ios_tree fromstring xml [] "clickable" true = Ok cl
       /\ traverse_ios_tree fromstring xml [] "focusable" true = Ok fl
       /\ merge_focusable cl fl cl = Ok out.
Proof.
  unfold get_ios_elements. fold (is_blank xml).
  destruct (is_blank xml).
  - intros H; injection H as <-. left; auto.
  - destruct (traverse_ios_tree fromstring xml [] "clickable" true) as [cl|e];
      cbn [bind]; [|discriminate].
    destruct (traverse_ios_tree fromstring xml [] "focusable" true) as [fl|e];
      cbn [bind]; [|discriminate].
    cbn [app]. intros H. right. exists cl, fl. auto.
Qed.

End Passes.

Section Suppression.

Lemma dist2_sym (p q : Point) : dist2 p q = dist2 q p.
Proof. unfold dist2. rewrite !Z.pow_2_r. ring. Qed.

Lemma dist2_same (p : Point) : dist2 p p = 0.
Proof. unfold dist2. rewrite !Z.sub_diag. reflexivity. Qed.

Lemma beyond_sym (r : Z) (a b : BBox) : beyond r a b -> beyond r b a.
Proof. unfold beyond. rewrite dist2_sym. auto. Qed.

Lemma ForallOrdPairs_snoc {A : Type} (R : A -> A -> Prop) (l : list A) (e : A) :
  ForallOrdPairs R l -> (forall a, In a l -> R a e) ->
  ForallOrdPairs R (l ++ [e]).
Proof.
  induction 1 as [|a l Ha Hl IH]; intros He; cbn [app].
  - constructor; constructor.
  - constructor.
    + apply Forall_app. split; [exact Ha|].
      constructor; [apply He; left; reflexivity|constructor].
    + apply IH. intros x Hx. apply He. right; exact Hx.
Qed.

Lemma close_to_false (c : Point) (r : Z) (l : list IOSElement) :
  close_to c r l = Ok false ->
  forall e, In e l -> r * r < dist2 c (center (bbox e)).
Proof.
  intros H e He. apply close_to_spec in H. symmetry in H.
  rewrite <- not_true_iff_false, existsb_exists in H.
  apply Z.nle_gt. intros Hle. apply H. exists e. split; [exact He|].
  apply Z.leb_le. exact Hle.
Qed.

Lemma close_to_true (c : Point) (r : Z) (l : list IOSElement) :
  close_to c r l = Ok true ->
  exists e, In e l /\ dist2 c (center (bbox e)) <= r * r.
Proof.
  intros H. apply close_to_spec in H. symmetry in H.
  apply existsb_exists in H as (e & He & Hle).
  exists e. split; [exact He|]. apply Z.leb_le. exact Hle.
Qed.

(** A visit keeps the elements of the list farther than 5 apart. *)
Lemma visit_far_apart a i path node l l' :
  far_apart 5 l -> visit a i path node l = Ok l' -> far_apart 5 l'.
Proof.
  intros Hl H.
  apply visit_cases in H as [[_ ->]|[(b & _ & _ & _ & ->)|(b & u & _ & _ & Hc & _ & ->)]];
    try exact Hl.
  apply ForallOrdPairs_snoc; [exact Hl|].
  intros x Hx. apply beyond_sym. unfold beyond. cbn [bbox element_of].
  exact (close_to_false _ _ _ Hc x Hx).
Qed.

Lemma snoc_neq {A : Type} (l : list A) (e : A) : (l ++ [e])%list <> l.
Proof.
  intros H. apply (f_equal (@List.length A)) in H.
  rewrite length_app in H. cbn in H. lia.
Qed.

End Suppression.

Section Lockstep.

Lemma close_to_with_attrib c r a l :
  close_to c r (map (with_attrib a) l) = close_to c r l.
Proof.
  induction l as [|e l IH]; cbn [map close_to]; [reflexivity|].
  cbn [with_attrib bbox]. rewrite IH. reflexivity.
Qed.

(** A visit does not look at the [attrib] of the elements: two passes that
    differ in it run in lockstep. *)
Lemma visit_with_attrib a1 a2 i path node l :
  visit a2 i path node (map (with_attrib a2) l)
  = res_map (map (with_attrib a2)) (visit a1 i path node l).
Proof.
  unfold visit.
  destruct (is_interactive_element node) as [[|]|e]; cbn [bind res_map];
    try reflexivity.
  destruct (get_element_bounds node) as [[b|]|e]; cbn [bind res_map];
    try reflexivity.
  rewrite close_to_with_attrib.
  destruct (close_to (center b) 5 l) as [[|]|e]; cbn [bind res_map];
    try reflexivity.
  destruct (get_element_id node) as [id0|e]; cbn [bind res_map];
    try reflexivity.
  destruct (1 <? List.length path)%nat;
    [destruct (get_element_id (parent_in path node)) as [idp|e]|];
    cbn [bind res_map]; try reflexivity;
    rewrite map_app; reflexivity.
Qed.

Lemma visit_all_with_attrib a1 a2 i items :
  forall l,
    visit_all a2 i items (map (with_attrib a2) l)
    = res_map (map (with_attrib a2)) (visit_all a1 i items l).
Proof.
  induction items as [|[p n] items IH]; intros l; cbn [visit_all].
  - reflexivity.
  - rewrite (visit_with_attrib a1 a2).
    destruct (visit a1 i p n l) as [l1|e]; cbn [bind res_map];
      [apply IH|reflexivity].
Qed.

(** Focusable elements that each share their box with a clickable element
    are all dropped by the merge. *)
Lemma merge_focusable_twins cl fl acc out :
  (forall f, In f fl -> exists c, In c cl /\ bbox c = bbox f) ->
  merge_focusable cl fl acc = Ok out -> out = acc.
Proof.
  intros Htw H. apply merge_focusable_spec in H. subst out.
  rewrite <- (app_nil_r acc) at 2. f_equal.
  induction fl as [|f fl IH]; cbn [filter]; [reflexivity|].
  destruct (Htw f (or_introl eq_refl)) as (c & Hc & Eb).
  assert (E : forallb (fun c => beyondb 10 (bbox f) (bbox c)) cl = false).
  { apply not_true_iff_false. intros Hall.
    rewrite forallb_forall in Hall. specialize (Hall c Hc).
    unfold beyondb in Hall. rewrite Eb, dist2_same in Hall. discriminate. }
  rewrite E. apply IH. intros g Hg. apply Htw. right; exact Hg.
Qed.

End Lockstep.

Section Pipeline.

Variable fromstring : string -> option XNode.

(** Every element of a pass started on the empty list is made from a node
    of the document. *)
Lemma pass_origin xml a i l :
  traverse_ios_tree fromstring xml [] a i = Ok l ->
  forall e, In e l ->
    exists root path node,
      fromstring xml = Some root
      /\ In (path, node) (preorder root [])
      /\ made_from a i path node e.
Proof.
  intros H e He.
  apply traverse_ios_tree_cases in H as [[_ ->]|(root & Er & H)]; [destruct He|].
  apply visit_all_origin in H as (added & -> & Hadd).
  destruct (Hadd e He) as (path & node & Hin & Hm).
  exists root, path, node. auto.
Qed.

Lemma pass_far_apart xml a i l :
  traverse_ios_tree fromstring xml [] a i = Ok l -> far_apart 5 l.
Proof.
  intros H.
  apply traverse_ios_tree_cases in H as [[_ ->]|(root & Er & H)]; [constructor|].
  revert H. apply visit_all_invariant; [|constructor].
  intros path node l0 l1. apply visit_far_apart.
Qed.

(** The focusable pass finds what the clickable pass finds. *)
Lemma focusable_pass_mirrors xml i :
  traverse_ios_tree fromstring xml [] "focusable" i
  = res_map (map (with_attrib "focusable"))
      (traverse_ios_tree fromstring xml [] "clickable" i).
Proof.
  unfold traverse_ios_tree. destruct (fromstring xml) as [root|]; [|reflexivity].
  rewrite !traverse_preorder.
  exact (visit_all_with_attrib "clickable" "focusable" i (preorder root []) []).
Qed.

(** The merged list is the list of the clickable pass. *)
Lemma merged_is_clickable_pass xml out :
  get_ios_elements fromstring xml = Ok out ->
  is_blank xml = false ->
  traverse_ios_tree fromstring xml [] "clickable" true = Ok out
  /\ traverse_ios_tree fromstring xml [] "focusable" true
     = Ok (map (with_attrib "focusable") out).
Proof.
  intros H Hb.
  apply get_ios_elements_cases in H as [[Hb' _]|(cl & fl & _ & Hc & Hf & Hm)];
    [congruence|].
  rewrite focusable_pass_mirrors, Hc in Hf. cbn [res_map] in Hf.
  injection Hf as <-.
  apply merge_focusable_twins in Hm.
  - subst out. split; [exact Hc|]. rewrite focusable_pass_mirrors, Hc. reflexivity.
  - intros f Hf. apply in_map_iff in Hf as (c & <- & Hc').
    exists c. split; [exact Hc'|reflexivity].
Qed.

End Pipeline.

(** C6: every element of the output has [bottom_right.x > top_left.x] and
    [bottom_right.y > top_left.y], so it is not the all-zero box; and a
    node whose decoded bounds have a non-positive width or height, or are
    [((0,0),(0,0))], is not interactive and every visit leaves the
    candidate list as it was. *)
Theorem degenerate_boxes_rejected (fromstring : string -> option XNode)
    (xml : string) (out : list IOSElement) :
  get_ios_elements fromstring xml = Ok out ->
  (forall e, In e out -> positive_area (bbox e) /\ bbox e <> zero_box)
  /\ (forall node b,
        get_element_bounds node = Ok (Some b) ->
        width_of b <= 0 \/ height_of b <= 0 \/ b = zero_box ->
        is_interactive_element node = Ok false
        /\ forall a i path l, visit a i path node l = Ok l).
Proof.
  intros H. split.
  - intros e He.
    assert (Hpos : positive_area (bbox e)).
    { apply get_ios_elements_cases in H as [[_ ->]|(cl & fl & Hb & Hc & Hf & Hm)];
        [destruct He|].
      assert (Ho : get_ios_elements fromstring xml = Ok out).
      { unfold get_ios_elements. fold (is_blank xml). rewrite Hb, Hc, Hf. exact Hm. }
      destruct (merged_is_clickable_pass fromstring xml out Ho Hb) as [Hp _].
      destruct (pass_origin fromstring xml _ _ _ Hp e He)
        as (root & path & node & _ & _ & Hi & Hbd & _).
      destruct (is_interactive_true node Hi) as (b & Eb & Hw & Hh).
      rewrite Hbd in Eb. injection Eb as <-.
      unfold positive_area, width_of, height_of in *. lia. }
    split; [exact Hpos|].
    intros E. rewrite E in Hpos. unfold positive_area, zero_box in Hpos.
    cbn in Hpos. lia.
  - intros node b Eb Hdeg.
    assert (Hi : is_interactive_element node = Ok false).
    { destruct (is_interactive_element node) as [[|]|e] eqn:Ei.
      - destruct (is_interactive_true node Ei) as (b' & Eb' & Hw & Hh).
        rewrite Eb in Eb'. injection Eb' as <-.
        destruct Hdeg as [Hd|[Hd|Hd]]; try lia.
        subst b. unfold width_of, zero_box in Hw. cbn in Hw. lia.
      - reflexivity.
      - unfold is_interactive_element in Ei. rewrite Eb in Ei. cbn [bind] in Ei.
        destruct b as [[x1 y1] [x2 y2]].
        repeat match type of Ei with
               | (if ?c then _ else _) = _ => destruct c; try discriminate
               end. }
    split; [exact Hi|].
    intros a i path l. unfold visit. rewrite Hi. reflexivity.
Qed.

Lemma degenerate_boxes_rejected_witness :
  (forall e, In e row_elements -> positive_area (bbox e) /\ bbox e <> zero_box)
  /\ is_interactive_element (button "5" "5" "0" "10") = Ok false
  /\ is_interactive_element (button "0" "0" "0" "0") = Ok false.
Proof.
  destruct (degenerate_boxes_rejected (parse_as row_xml row_doc) row_xml
              row_elements ltac:(vm_compute; reflexivity)) as [H1 H2].
  split; [exact H1|]. split.
  - apply (H2 (button "5" "5" "0" "10") ((5, 5), (5, 15)));
      [vm_compute; reflexivity|left; vm_compute; discriminate].
  - apply (H2 (button "0" "0" "0" "0") zero_box);
      [vm_compute; reflexivity|right; right; reflexivity].
Defined.

(** C2: every element of the list [get_ios_elements] returns carries
    [attrib = "clickable"].  The focusable pass finds the clickable pass's
    elements again, each at distance 0 from its twin, so the merge adds
    none of them: the merged list is the clickable list. *)
Theorem merged_elements_all_clickable (fromstring : string -> option XNode)
    (xml : string) (out : list IOSElement) :
  get_ios_elements fromstring xml = Ok out ->
  Forall (fun e => attrib e = "clickable" /\ attrib e <> "focusable") out
  /\ (is_blank xml = false ->
      traverse_ios_tree fromstring xml [] "clickable" true = Ok out
      /\ traverse_ios_tree fromstring xml [] "focusable" true
         = Ok (map (with_attrib "focusable") out)
      /\ forall f, In f (map (with_attrib "focusable") out) ->
           exists c, In c out /\ dist2 (center (bbox f)) (center (bbox c)) = 0).
Proof.
  intros H. split.
  - apply Forall_forall. intros e He.
    assert (Ha : attrib e = "clickable").
    { destruct (is_blank xml) eqn:Hb.
      - apply get_ios_elements_cases in H as [[_ ->]|(cl & fl & Hb' & _)];
          [destruct He|congruence].
      - destruct (merged_is_clickable_pass fromstring xml out H Hb) as [Hp _].
        destruct (pass_origin fromstring xml _ _ _ Hp e He)
          as (root & path & node & _ & _ & _ & _ & u & _ & ->).
        reflexivity. }
    split; [exact Ha|]. rewrite Ha. discriminate.
  - intros Hb.
    destruct (merged_is_clickable_pass fromstring xml out H Hb) as [Hp Hf].
    split; [exact Hp|]. split; [exact Hf|].
    intros f Hin. apply in_map_iff in Hin as (c & <- & Hc).
    exists c. split; [exact Hc|]. apply dist2_same.
Qed.

Lemma merged_elements_all_clickable_witness :
  Forall (fun e => attrib e = "clickable" /\ attrib e <> "focusable") row_elements.
Proof.
  exact (proj1 (merged_elements_all_clickable (parse_as row_xml row_doc)
                  row_xml row_elements ltac:(vm_compute; reflexivity))).
Defined.

(** C1, as stated, fails: in [row_doc] the second and third buttons have
    centers 4 apart, within the in-pass radius; the second is discarded
    for being within 5 of the first, the third is 8 away from the first and
    is accepted.  Of that pair the merged list retains the later-discovered
    candidate, not the earlier one. *)
Lemma later_candidate_retained_counterexample :
  get_ios_elements (parse_as row_xml row_doc) row_xml = Ok row_elements
  /\ candidates row_doc
     = [button "0" "0" "20" "20"; button "4" "0" "20" "20";
        button "8" "0" "20" "20"]
  /\ ~ later_of_close_pair_dropped row_doc row_elements.
Proof.
  split; [vm_compute; reflexivity|]. split; [vm_compute; reflexivity|].
  intros H.
  apply (H 1%nat 2%nat (button "4" "0" "20" "20") (button "8" "0" "20" "20")
           ((4, 0), (24, 20)) ((8, 0), (28, 20))).
  - lia.
  - vm_compute; reflexivity.
  - vm_compute; reflexivity.
  - vm_compute; reflexivity.
  - vm_compute; reflexivity.
  - vm_compute. discriminate.
  - right; left; reflexivity.
Qed.

(** C1 (amended): the merged list is the clickable list, every element
    kept and in its own order, followed by the focusable elements whose
    center is farther than 10 from the center of every clickable element,
    and by no other; within a pass a qualifying node is discarded exactly
    when its center is within 5 of the center of an element already
    accepted, and is appended otherwise; so no two elements of a pass, and no
    two of the merged list, are within 5 of each other, and no retained
    focusable element is within 10 of a clickable one: of two candidates
    within the radius at most one is retained, and the later one is
    discarded whenever the earlier one was accepted. *)
Theorem suppression_and_merge (fromstring : string -> option XNode)
    (xml : string) (out : list IOSElement) :
  get_ios_elements fromstring xml = Ok out ->
  exists cl fl,
    (is_blank xml = false ->
       traverse_ios_tree fromstring xml [] "clickable" true = Ok cl
       /\ traverse_ios_tree fromstring xml [] "focusable" true = Ok fl)
    /\ (forall cl' fl' acc merged,
          merge_focusable cl' fl' acc = Ok merged ->
          exists kept,
            merged = (acc ++ kept)%list
            /\ kept = filter (fun f => forallb (fun c => beyondb 10 (bbox f) (bbox c)) cl') fl'
            /\ forall f, In f kept <->
                 In f fl' /\ forall c, In c cl' -> beyond 10 (bbox f) (bbox c))
    /\ merge_focusable cl fl cl = Ok out
    /\ (forall a i path node b l l',
          is_interactive_element node = Ok true ->
          get_element_bounds node = Ok (Some b) ->
          visit a i path node l = Ok l' ->
          (l' = l <-> exists e, In e l /\ within 5 b (bbox e))
          /\ (l' = l \/ exists u, l' = (l ++ [element_of a u node b])%list))
    /\ far_apart 5 cl /\ far_apart 5 fl /\ far_apart 5 out.
Proof.
  intros H.
  assert (Hout : far_apart 5 out).
  { destruct (is_blank xml) eqn:Hb.
    - apply get_ios_elements_cases in H as [[_ ->]|(cl & fl & Hb' & _)];
        [constructor|congruence].
    - destruct (merged_is_clickable_pass fromstring xml out H Hb) as [Hp _].
      eapply pass_far_apart; eassumption. }
  assert (Hmerge : forall cl' fl' acc merged,
            merge_focusable cl' fl' acc = Ok merged ->
            exists kept,
              merged = (acc ++ kept)%list
              /\ kept = filter (fun f => forallb (fun c => beyondb 10 (bbox f) (bbox c)) cl') fl'
              /\ forall f, In f kept <->
                   In f fl' /\ forall c, In c cl' -> beyond 10 (bbox f) (bbox c)).
  { intros cl' fl' acc merged Hm. apply merge_focusable_spec in Hm.
    eexists. split; [exact Hm|]. split; [reflexivity|].
    intros f. rewrite filter_In, forallb_forall.
    unfold beyondb, beyond.
    split; intros [Hf Hall]; (split; [exact Hf|]);
      intros c Hc; apply Z.ltb_lt, Hall, Hc. }
  assert (Hvisit : forall a i path node b l l',
            is_interactive_element node = Ok true ->
            get_element_bounds node = Ok (Some b) ->
            visit a i path node l = Ok l' ->
            (l' = l <-> exists e, In e l /\ within 5 b (bbox e))
            /\ (l' = l \/ exists u, l' = (l ++ [element_of a u node b])%list)).
  { intros a i path node b l l' Hi Hb Hv.
    apply visit_cases in Hv
      as [[Hi' _]|[(b' & _ & Hb' & Hc & ->)|(b' & u & _ & Hb' & Hc & _ & ->)]].
    - congruence.
    - rewrite Hb in Hb'. injection Hb' as <-.
      split; [|left; reflexivity].
      split; [intros _|reflexivity].
      apply close_to_true in Hc as (e & He & Hd). exists e. split; assumption.
    - rewrite Hb in Hb'. injection Hb' as <-.
      split; [|right; exists u; reflexivity].
      split; [intros E; exfalso; exact (snoc_neq _ _ E)|].
      intros (e & He & Hd). exfalso.
      pose proof (close_to_false _ _ _ Hc e He) as Hfar.
      unfold within in Hd. lia. }
  destruct (get_ios_elements_cases fromstring xml out H)
    as [[Hb ->]|(cl & fl & Hb & Hc & Hf & Hm)].
  - exists [], []. split; [congruence|]. split; [exact Hmerge|].
    split; [reflexivity|]. split; [exact Hvisit|]. repeat split; constructor.
  - exists cl, fl. split; [auto|]. split; [exact Hmerge|].
    split; [exact Hm|]. split; [exact Hvisit|].
    split; [eapply pass_far_apart; eassumption|].
    split; [eapply pass_far_apart; eassumption|exact Hout].
Qed.

Lemma suppression_and_merge_witness :
  exists cl fl,
    merge_focusable cl fl cl = Ok row_elements
    /\ far_apart 5 cl /\ far_apart 5 fl /\ far_apart 5 row_elements.
Proof.
  destruct (suppression_and_merge (parse_as row_xml row_doc) row_xml
              row_elements ltac:(vm_compute; reflexivity))
    as (cl & fl & _ & _ & Hm & _ & Hc & Hf & Ho).
  exists cl, fl. auto.
Defined.

Section Identifiers.

Lemma prefix_char (a c : ascii) (s : string) :
  prefix (String a "") (String c s) = Ascii.eqb c a.
Proof.
  cbn -[ascii_dec]. destruct (ascii_dec a c) as [<-|N].
  - rewrite Ascii.eqb_refl. destruct s; reflexivity.
  - symmetry. apply Ascii.eqb_neq. congruence.
Qed.

Lemma replace_char_char (a b : ascii) (s : string) :
  replace (String a "") (String b "") s
  = smap (fun c => if Ascii.eqb c a then b else c) s.
Proof.
  unfold replace.
  induction s as [|c s IH]; [reflexivity|].
  rewrite replace_from_O, prefix_char. cbn [smap String.length Nat.sub append].
  rewrite IH. destruct (Ascii.eqb c a); reflexivity.
Qed.

Lemma smap_smap (f g : ascii -> ascii) (s : string) :
  smap g (smap f s) = smap (fun c => g (f c)) s.
Proof.
  induction s as [|c s IH]; cbn; [reflexivity|]. rewrite IH. reflexivity.
Qed.

Lemma smap_ext (f g : ascii -> ascii) (s : string) :
  (forall c, f c = g c) -> smap f s = smap g s.
Proof.
  intros E. induction s as [|c s IH]; cbn; [reflexivity|].
  rewrite E, IH. reflexivity.
Qed.

(** The two replacements of [get_element_id] turn spaces and colons into
    underscores and leave every other character. *)
Lemma replace_space_colon (s : string) :
  replace ":" "_" (replace " " "_" s) = underscored s.
Proof.
  change ":" with (String ":" ""). change " " with (String " " "").
  change "_" with (String "_" "").
  rewrite !replace_char_char, smap_smap. unfold underscored.
  apply smap_ext. intros c.
  destruct (Ascii.eqb c " ") eqn:E1; cbn [orb]; [reflexivity|].
  reflexivity.
Qed.

(** [get_element_id] builds the identifier the specification describes. *)
Lemma get_element_id_described (node : XNode) (s : string) :
  get_element_id node = Ok s ->
  exists size, size_of node size /\ s = base_id node size.
Proof.
  unfold get_element_id, base_id, size_of.
  destruct (get_element_bounds node) as [[b|]|e]; cbn [bind]; [| |discriminate].
  - intros H. exists (width_of b, height_of b).
    split; [left; exists b; auto|].
    revert H. unfold get_or.
    destruct (get node "name") as [[|c1 r1]|];
      destruct (get node "identifier") as [[|c2 r2]|];
      destruct (get node "label") as [[|c3 r3]|];
      cbv [py_or truthy first_nonempty];
      rewrite ?replace_space_colon;
      intros H; injection H as <-; reflexivity.
  - intros H. exists (0, 0).
    split; [right; auto|].
    revert H. unfold get_or.
    destruct (get node "name") as [[|c1 r1]|];
      destruct (get node "identifier") as [[|c2 r2]|];
      destruct (get node "label") as [[|c3 r3]|];
      cbv [py_or truthy first_nonempty];
      rewrite ?replace_space_colon;
      intros H; injection H as <-; reflexivity.
Qed.

(** A path of the traversal ends with the node and, above it, its parent. *)
Lemma preorder_paths (node : XNode) :
  forall p0 path n,
    In (path, n) (preorder node p0) ->
    (path = (p0 ++ [node])%list /\ n = node)
    \/ exists ancestors parent,
         path = (ancestors ++ [parent; n])%list /\ In n (children_of parent).
Proof.
  induction node as [tag attrs children IH] using XNode_ind.
  intros p0 path n. cbn [preorder].
  intros [E|Hin]; [injection E as <- <-; left; auto|].
  right.
  set (self := Node tag attrs children) in *.
  assert (Hsub : forall cs, (forall c, In c cs -> In c children) ->
            Forall (fun c => forall p0 path n,
                      In (path, n) (preorder c p0) ->
                      (path = (p0 ++ [c])%list /\ n = c)
                      \/ exists ancestors parent,
                           path = (ancestors ++ [parent; n])%list
                           /\ In n (children_of parent)) cs ->
            In (path, n)
              ((fix each (cs : list XNode) : list (list XNode * XNode) :=
                  match cs with
                  | [] => []
                  | child :: cs' => (preorder child (p0 ++ [self]) ++ each cs')%list
                  end) cs) ->
            exists ancestors parent,
              path = (ancestors ++ [parent; n])%list /\ In n (children_of parent)).
  { induction cs as [|c cs IHcs]; intros Hcs Hall Hi; [destruct Hi|].
    apply in_app_or in Hi as [Hi|Hi].
    - inversion_clear Hall as [|? ? Hc _].
      destruct (Hc _ _ _ Hi) as [[-> ->]|Hex]; [|exact Hex].
      exists p0, self. rewrite <- app_assoc. split; [reflexivity|].
      apply Hcs. left; reflexivity.
    - inversion_clear Hall as [|? ? _ Hrest].
      apply IHcs; auto. intros c' Hc'. apply Hcs. right; exact Hc'. }
  apply (Hsub children); auto.
Qed.

Lemma parent_in_snoc2 (ancestors : list XNode) (parent n default : XNode) :
  parent_in (ancestors ++ [parent; n]) default = parent
  /\ (1 <? List.length (ancestors ++ [parent; n]))%nat = true.
Proof.
  unfold parent_in. rewrite length_app. cbn [List.length].
  split.
  - replace (List.length ancestors + 2 - 2)%nat with (List.length ancestors) by lia.
    rewrite app_nth2 by lia. rewrite Nat.sub_diag. reflexivity.
  - apply Nat.ltb_lt. lia.
Qed.

End Identifiers.

(** C7: every element of the output is made from an accepted node of the
    document, and its identifier is the node's own identifier,
    [type_identifierOrName] with spaces and colons replaced by underscores
    when the node carries a non-empty name, identifier or label, else
    [type_width_height]; prefixed with the identifier of the node's parent
    (built the same way) when the node has one, that is, when it is not the
    root; and followed by the node's reported index attribute (by [0] when
    the node reports none). *)
Theorem uid_construction (fromstring : string -> option XNode)
    (xml : string) (out : list IOSElement) (e : IOSElement) :
  get_ios_elements fromstring xml = Ok out ->
  In e out ->
  exists root path node,
    fromstring xml = Some root
    /\ In (path, node) (preorder root [])
    /\ is_interactive_element node = Ok true
    /\ get_element_bounds node = Ok (Some (bbox e))
    /\ element_type e = tag_of node
    /\ let own := base_id node (width_of (bbox e), height_of (bbox e)) in
       (node = root /\ path = [root]
        /\ uid e = own ++ "_" ++ index_suffix node)
       \/ (exists ancestors parent psize,
             path = (ancestors ++ [parent; node])%list
             /\ In node (children_of parent)
             /\ size_of parent psize
             /\ uid e = base_id parent psize ++ "_" ++ own
                          ++ "_" ++ index_suffix node).
Proof.
  intros H He.
  destruct (is_blank xml) eqn:Hb.
  { apply get_ios_elements_cases in H as [[_ ->]|(cl & fl & Hb' & _)];
      [destruct He|congruence]. }
  destruct (merged_is_clickable_pass fromstring xml out H Hb) as [Hp _].
  destruct (pass_origin fromstring xml _ _ _ Hp e He)
    as (root & path & node & Er & Hin & Hi & Hbd & u & Hu & Ee).
  exists root, path, node.
  split; [exact Er|]. split; [exact Hin|]. split; [exact Hi|].
  split; [exact Hbd|]. split; [rewrite Ee; reflexivity|].
  assert (Eu : uid e = u) by (rewrite Ee; reflexivity).
  cbv zeta. rewrite Eu. clear Ee Eu.
  unfold uid_of in Hu.
  destruct (get_element_id node) as [id0|x] eqn:Eid; cbn [bind] in Hu;
    [|discriminate].
  apply get_element_id_described in Eid as (size & Hsize & ->).
  assert (Es : size = (width_of (bbox e), height_of (bbox e))).
  { destruct Hsize as [(b & Eb & ->)|[Eb _]]; rewrite Hbd in Eb.
    - injection Eb as <-. reflexivity.
    - discriminate. }
  subst size.
  assert (Ei : get_or node "index" "0" = index_suffix node).
  { unfold get_or, index_suffix. destruct (get node "index"); reflexivity. }
  apply preorder_paths in Hin as [[-> ->]|(anc & parent & -> & Hchild)].
  - left. cbn [app List.length Nat.ltb Nat.leb bind] in Hu.
    injection Hu as <-. rewrite Ei. auto.
  - right.
    destruct (parent_in_snoc2 anc parent node node) as [Epar Elen].
    rewrite Elen, Epar in Hu.
    destruct (get_element_id parent) as [idp|x] eqn:Eidp; cbn [bind] in Hu;
      [|discriminate].
    apply get_element_id_described in Eidp as (psize & Hpsize & ->).
    injection Hu as <-.
    exists anc, parent, psize. rewrite Ei, !append_assoc.
    repeat split; auto.
Qed.

Lemma uid_construction_witness :
  exists root path node,
    parse_as row_xml row_doc row_xml = Some root
    /\ In (path, node) (preorder root [])
    /\ is_interactive_element node = Ok true.
Proof.
  destruct (uid_construction (parse_as row_xml row_doc) row_xml row_elements
              (mkIOSElement
                 "XCUIElementTypeApplication_Demo_XCUIElementTypeButton_20_20_0"
                 ((8, 0), (28, 20)) "clickable" "XCUIElementTypeButton"
                 None None None)
              ltac:(vm_compute; reflexivity)
              ltac:(right; left; reflexivity))
    as (root & path & node & H1 & H2 & H3 & _).
  exists root, path, node. auto.
Defined.

(* ================================================================== *)
(** * Bounds that cannot be resolved *)
(* ================================================================== *)

(** C9: [parse_bounds] turns every decode failure into [None] and never
    raises, but [get_element_bounds] catches only [ValueError] and
    [TypeError] around the separate [x], [y], [width], [height]
    attributes: on [x='inf'] (or [x='1e999'], which [float] reads as
    infinity), [int(float(x))] raises [OverflowError], which leaves
    [get_element_bounds], [is_interactive_element], the traversal and
    [get_ios_elements]; the sound button that came first is lost with it,
    where a document of sound buttons yields its elements. *)
Theorem unresolved_bounds_abort_traversal :
  (forall s, exists r, parse_bounds s = Ok r)
  /\ parse_bounds "inf,0,20,20" = Ok None
  /\ get_element_bounds (button "inf" "0" "20" "20") = Raise OverflowError
  /\ is_interactive_element (button "inf" "0" "20" "20") = Raise OverflowError
  /\ get_ios_elements (parse_as overflow_xml overflow_doc) overflow_xml
     = Raise OverflowError
  /\ get_element_bounds (button "1e999" "0" "20" "20") = Raise OverflowError
  /\ get_element_bounds (button "nan" "0" "20" "20") = Ok None
  /\ get_ios_elements (parse_as row_xml row_doc) row_xml = Ok row_elements.
Proof.
  split; [exact parse_bounds_never_raises|].
  repeat split; vm_compute; reflexivity.
Qed.

(* ================================================================== *)
(** * The source normalizer (get_page_source) *)
(* ================================================================== *)

Section Normalizer.

Lemma nonempty_strip (s : string) :
  nonempty (strip s) = true ->
  nonempty s && (0 <? String.length (strip s))%nat = true.
Proof.
  intros H. destruct s as [|c s]; [discriminate H|].
  destruct (strip (String c s)); [discriminate H|reflexivity].
Qed.

End Normalizer.

(** C8, as stated, fails: a server that answers 200 with the plain-text
    body [Service Unavailable] gives a non-empty payload that does not
    decode as JSON; the text branch does not return it, the only URL is
    used up, and [get_page_source] returns [None]. *)
Lemma raw_body_discarded_counterexample :
  ~ raw_body_returned plain_text_server "http://localhost:8100"
  /\ get_page_source plain_text_server "http://localhost:8100" None = None.
Proof.
  split; [|vm_compute; reflexivity].
  intros H. specialize (H "Service Unavailable" eq_refl eq_refl).
  vm_compute in H. discriminate H.
Qed.

(** C8 (amended): for the first URL tried that answers 200, a payload
    extracted from the JSON wrapper that is a string and not blank is
    returned, unquoted and unescaped, whether or not it passes the
    plausibility check; a body that does not decode as JSON and is not
    blank is returned, stripped, when it passes the check, and otherwise
    the function moves on to the next URL. *)
Theorem source_normalizer_best_effort (requests_get : string -> reply)
    (wda_url : string) (session_id : option string)
    (url : string) (rest : list string) (body_json : option json)
    (text : string) :
  urls_to_try wda_url session_id = url :: rest ->
  requests_get url = Response 200 body_json text ->
  (forall data source,
      body_json = Some data ->
      extract_source data = JStr source ->
      nonempty (strip source) = true ->
      get_page_source requests_get wda_url session_id
      = Some (unquote_unescape source))
  /\ (body_json = None ->
      nonempty (strip text) = true ->
      (looks_like_xml (strip text) = true ->
       get_page_source requests_get wda_url session_id = Some (strip text))
      /\ (looks_like_xml (strip text) = false ->
          get_page_source requests_get wda_url session_id
          = try_urls requests_get rest)).
Proof.
  intros Hu Hr. unfold get_page_source. rewrite Hu. cbn [try_urls].
  rewrite Hr. cbn [Z.eqb Pos.eqb]. split.
  - intros data source -> Hx Hn. unfold source_of_200. rewrite Hx.
    rewrite (nonempty_strip _ Hn).
    destruct (looks_like_xml (strip (unquote_unescape source))); reflexivity.
  - intros -> Hn. unfold source_of_200. rewrite (nonempty_strip _ Hn).
    split; intros Hl; rewrite Hl; reflexivity.
Qed.

Lemma source_normalizer_best_effort_witness :
  get_page_source
    (fun _ => Response 200 (Some (JDict [("value", JStr "Service Unavailable")])) "")
    "http://localhost:8100" None
  = Some "Service Unavailable"
  /\ get_page_source (fun _ => Response 200 None " <App/> ")
       "http://localhost:8100" None
     = Some "<App/>".
Proof.
  split.
  - exact (proj1 (source_normalizer_best_effort
                    (fun _ => Response 200
                                (Some (JDict [("value", JStr "Service Unavailable")])) "")
                    "http://localhost:8100" None
                    "http://localhost:8100/source" []
                    (Some (JDict [("value", JStr "Service Unavailable")])) ""
                    eq_refl eq_refl)
             (JDict [("value", JStr "Service Unavailable")])
             "Service Unavailable" eq_refl eq_refl eq_refl).
  - exact (proj1 (proj2 (source_normalizer_best_effort
                    (fun _ => Response 200 None " <App/> ")
                    "http://localhost:8100" None
                    "http://localhost:8100/source" []
                    None " <App/> " eq_refl eq_refl) eq_refl eq_refl) eq_refl).
Defined.

(* ================================================================== *)
(** * Addressing by index (executor.py) *)
(* ================================================================== *)

Import Executor.

(** C3: on a list of [n >= 1] elements, every index outside [1..n], 0 and
    [n + 1] among them, fails the assertion: the call raises, sends no tap
    and leaves the executor as it was; index [n] succeeds and taps the
    physical point of the center of the [n]-th element's box. *)
Theorem tap_by_index_addressing (self : IOSExecutor) (n : Z) :
  n = Z.of_nat (List.length (Executor.elem_list self)) ->
  1 <= n ->
  (forall index, index < 1 \/ n < index ->
     tap_by_index self index = (self, inr AssertionError_out_of_range))
  /\ tap_by_index self 0 = (self, inr AssertionError_out_of_range)
  /\ tap_by_index self (n + 1) = (self, inr AssertionError_out_of_range)
  /\ exists e,
       nth_error (Executor.elem_list self) (Z.to_nat (n - 1)) = Some e
       /\ let c := center (bbox e) in
          let p := _logical_to_physical (fst c) (snd c) in
          tap_by_index self n
          = (mkExecutor (Executor.elem_list self)
               (Some (TapDone (fst p) (snd p))) (p :: taps self),
             inl (TapDone (fst p) (snd p))).
Proof.
  intros Hn Hpos.
  assert (Hout : forall index, index < 1 \/ n < index ->
            tap_by_index self index = (self, inr AssertionError_out_of_range)).
  { intros index Hi. unfold tap_by_index.
    destruct (Executor.elem_list self) as [|e0 l0] eqn:El;
      [cbn in Hn; lia|].
    rewrite <- Hn.
    assert (E : (0 <? index) && (index <=? n) = false).
    { apply andb_false_iff. destruct Hi; [left; apply Z.ltb_ge|right; apply Z.leb_gt]; lia. }
    rewrite E. reflexivity. }
  split; [exact Hout|]. split; [apply Hout; lia|]. split; [apply Hout; lia|].
  destruct (nth_error (Executor.elem_list self) (Z.to_nat (n - 1))) as [e|] eqn:En.
  2:{ apply nth_error_None in En. lia. }
  exists e. split; [reflexivity|].
  unfold tap_by_index.
  destruct (Executor.elem_list self) as [|e0 l0] eqn:El; [cbn in Hn; lia|].
  rewrite <- Hn.
  assert (E : (0 <? n) && (n <=? n) = true).
  { apply andb_true_iff. split; [apply Z.ltb_lt|apply Z.leb_le]; lia. }
  rewrite E. cbn [negb]. unfold subscript. rewrite <- Hn.
  assert (E2 : (0 <=? n - 1) && (n - 1 <? n) = true).
  { apply andb_true_iff. split; [apply Z.leb_le|apply Z.ltb_lt]; lia. }
  rewrite E2, En.
  destruct e as [u [tl br] a t nm lb idn]. cbn [bbox center fst snd].
  unfold tap, _logical_to_physical. cbn [fst snd]. rewrite El. reflexivity.
Qed.

Lemma tap_by_index_addressing_witness :
  let self := mkExecutor row_elements None [] in
  tap_by_index self 0 = (self, inr AssertionError_out_of_range)
  /\ tap_by_index self 3 = (self, inr AssertionError_out_of_range)
  /\ snd (tap_by_index self 2) = inl (TapDone 54 30).
Proof.
  intros self.
  destruct (tap_by_index_addressing self 2 eq_refl ltac:(lia))
    as (_ & H0 & H3 & e & He & Hn).
  split; [exact H0|]. split; [exact H3|].
  vm_compute in He. injection He as <-. rewrite Hn. reflexivity.
Defined.

(* ================================================================== *)
(** * Scale factor detection (labeling.py) *)
(* ================================================================== *)

Import Labeling.

(** C10: on a screenshot 1179 pixels wide, of any height,
    [_get_scale_factor] returns the float 3.0, by the test against the
    logical width 393, and not the estimate [width / 375]. *)
Theorem scale_factor_of_1179 (height : Z) :
  _get_scale_factor (Image height 1179) = NFloat 3
  /\ near_logical 1179 3 393 = true
  /\ ~ (3 == inject_Z 1179 / 375)%Q
  /\ _get_scale_factor (Image height 1300) = NFloat (inject_Z 1300 / 375).
Proof.
  split; [reflexivity|]. split; [reflexivity|]. split; [|reflexivity].
  intros H. vm_compute in H. discriminate H.
Qed.

(* ================================================================== *)
(** * Further properties of the code *)
(* ================================================================== *)

Section BoundsFormats.

Lemma no_brace_no_open (s : string) :
  all_chars (is_not "{") (sfilter (fun c => negb (is_brace c)) s) = true.
Proof.
  induction s as [|c s IH]; [reflexivity|]. cbn [sfilter].
  destruct (negb (is_brace c)) eqn:E; [|exact IH].
  cbn [all_chars]. rewrite IH, andb_true_r.
  unfold is_brace in E. unfold is_not.
  destruct (Ascii.eqb c "{"); [discriminate E|reflexivity].
Qed.

Lemma parse_bounds_simple (s : string) :
  contains "{{" s = false ->
  parse_bounds s
  = if nonempty s then try_except (parse_simple s) any_exception (Ok None)
    else Ok None.
Proof.
  intros H. unfold parse_bounds. rewrite H. destruct (nonempty s); reflexivity.
Qed.

Lemma parse_simple_empty : parse_simple "" = Ok None.
Proof. reflexivity. Qed.

Lemma split_length (c : ascii) (s : string) :
  List.length (split c s) = S (count_char c s).
Proof.
  induction s as [|a s IH]; [reflexivity|]. cbn [split count_char].
  destruct (Ascii.eqb a c).
  - cbn [List.length]. rewrite IH. reflexivity.
  - destruct (split c s) as [|p ps]; [discriminate IH|exact IH].
Qed.

Lemma count_char_sfilter (p : ascii -> bool) (c : ascii) (s : string) :
  p c = true -> count_char c (sfilter p s) = count_char c s.
Proof.
  intros Hp. induction s as [|a s IH]; [reflexivity|].
  cbn [sfilter count_char].
  destruct (Ascii.eqb a c) eqn:E.
  - apply Ascii.eqb_eq in E. subst a. rewrite Hp. cbn [count_char].
    rewrite Ascii.eqb_refl, IH. reflexivity.
  - destruct (p a); cbn [count_char]; rewrite ?E; exact IH.
Qed.

End BoundsFormats.

(** X1: in a bounds string that contains [{{], braces are ignored wherever
    they stand: the result is that of the string with every brace
    deleted. *)
Theorem parse_bounds_ignores_braces (s : string) :
  contains "{{" s = true ->
  parse_bounds s = parse_bounds (sfilter (fun c => negb (is_brace c)) s).
Proof.
  intros H. rewrite parse_bounds_brace by exact H.
  rewrite strip_braces_sfilter.
  set (t := sfilter (fun c => negb (is_brace c)) s).
  rewrite (parse_bounds_simple t)
    by (apply contains_absent, no_brace_no_open).
  destruct t; reflexivity.
Qed.

Lemma parse_bounds_ignores_braces_witness :
  parse_bounds "{{1, 2}, {3, 4}" = parse_bounds "1, 2, 3, 4"
  /\ parse_bounds "{{}1{,2,{{3},4" = Ok (Some ((1, 2), (4, 6))).
Proof.
  split.
  - exact (parse_bounds_ignores_braces "{{1, 2}, {3, 4}" eq_refl).
  - rewrite (parse_bounds_ignores_braces "{{}1{,2,{{3},4" eq_refl).
    vm_compute. reflexivity.
Defined.

(** X2: a bounds string with fewer than three commas has fewer than four
    parts and decodes to [None], whatever else it contains. *)
Theorem parse_bounds_too_few_parts (s : string) :
  (count_char "," s < 3)%nat -> parse_bounds s = Ok None.
Proof.
  intros H.
  assert (Hs : forall t, (count_char "," t < 3)%nat -> parse_simple t = Ok None).
  { intros t Ht. unfold parse_simple. rewrite split_length.
    assert (E : (4 <=? S (count_char "," t))%nat = false)
      by (apply Nat.leb_gt; lia).
    rewrite E. reflexivity. }
  destruct (contains "{{" s) eqn:C.
  - rewrite parse_bounds_brace by exact C. rewrite strip_braces_sfilter.
    rewrite Hs; [reflexivity|].
    rewrite count_char_sfilter by reflexivity. exact H.
  - rewrite parse_bounds_simple by exact C.
    rewrite Hs by exact H. destruct (nonempty s); reflexivity.
Qed.

Lemma parse_bounds_too_few_parts_witness :
  parse_bounds "10,20,30" = Ok None /\ parse_bounds "{{10, 20}, 30}" = Ok None.
Proof.
  split; apply parse_bounds_too_few_parts; vm_compute; lia.
Defined.

Section BoundsParts.

Lemma sfilter_comma_form (tx ty tw th : string) :
  token tx = true -> token ty = true -> token tw = true -> token th = true ->
  sfilter (fun c => negb (is_brace c)) (comma_form tx ty tw th)
  = comma_form tx ty tw th.
Proof.
  intros Hx Hy Hw Hh. unfold comma_form. rewrite !sfilter_app.
  rewrite (sfilter_all _ tx), (sfilter_all _ ty), (sfilter_all _ tw),
    (sfilter_all _ th) by (apply token_no_brace; assumption).
  reflexivity.
Qed.

Lemma parse_simple_extra_parts (tx ty tw th r : string) :
  token tx = true -> token ty = true -> token tw = true -> token th = true ->
  parse_simple (comma_form tx ty tw th ++ "," ++ r)
  = parse_simple (comma_form tx ty tw th).
Proof.
  intros Hx Hy Hw Hh. unfold parse_simple.
  rewrite parts_of_comma_form by assumption.
  assert (E : split "," (comma_form tx ty tw th ++ "," ++ r)
              = tx :: ty :: tw :: th :: split "," r).
  { unfold comma_form. rewrite !append_assoc. cbn [append].
    rewrite (split_app_sep "," tx), (split_app_sep "," ty),
      (split_app_sep "," tw), (split_app_sep "," th)
      by (apply token_no_comma; assumption).
    reflexivity. }
  rewrite E. reflexivity.
Qed.

End BoundsParts.

(** X3: the decoder reads the first four parts and ignores what follows
    them: after four tokens, a comma and any further text leave the result
    as it is. *)
Theorem parse_bounds_ignores_extra_parts (tx ty tw th rest : string) :
  token tx = true -> token ty = true -> token tw = true -> token th = true ->
  parse_bounds (comma_form tx ty tw th ++ "," ++ rest)
  = parse_bounds (comma_form tx ty tw th).
Proof.
  intros Hx Hy Hw Hh.
  assert (R : parse_bounds (comma_form tx ty tw th)
              = try_except (parse_simple (comma_form tx ty tw th))
                  any_exception (Ok None)).
  { rewrite parse_bounds_simple.
    - unfold comma_form. destruct tx; reflexivity.
    - apply contains_absent. unfold comma_form. rewrite !all_chars_app.
      rewrite (token_no_open tx), (token_no_open ty), (token_no_open tw),
        (token_no_open th) by assumption.
      reflexivity. }
  rewrite R.
  destruct (contains "{{" (comma_form tx ty tw th ++ "," ++ rest)) eqn:C.
  - rewrite parse_bounds_brace by exact C. rewrite strip_braces_sfilter.
    rewrite sfilter_app, sfilter_comma_form by assumption.
    change (sfilter (fun c => negb (is_brace c)) ("," ++ rest))
      with ("," ++ sfilter (fun c => negb (is_brace c)) rest).
    rewrite parse_simple_extra_parts by assumption. reflexivity.
  - rewrite parse_bounds_simple by exact C.
    rewrite parse_simple_extra_parts by assumption.
    unfold comma_form. destruct tx; reflexivity.
Qed.

Lemma parse_bounds_ignores_extra_parts_witness :
  parse_bounds "10,20,30,40,50,{{x" = Ok (Some ((10, 20), (40, 60))).
Proof.
  change "10,20,30,40,50,{{x"
    with (comma_form "10" "20" "30" "40" ++ "," ++ "50,{{x").
  rewrite (parse_bounds_ignores_extra_parts "10" "20" "30" "40" "50,{{x"
             eq_refl eq_refl eq_refl eq_refl).
  vm_compute. reflexivity.
Defined.

Section ElementBounds.

Lemma int_float_raises (s : string) (e : exn) :
  int_float s = Raise e -> e = ValueError \/ e = OverflowError.
Proof.
  unfold int_float, float.
  destruct (drop_underscores false (strip s)) as [t|]; cbn [bind].
  - destruct (parse_float t) as [[| |neg m x]|]; cbn [bind int_of_float];
      intros H; try discriminate H; injection H as <-; auto.
  - intros H; injection H as <-; auto.
Qed.

End ElementBounds.

Section ElementBoundsRaise.

Lemma get_element_bounds_raise (element : XNode) (e : exn) :
  get_element_bounds element = Raise e -> e = OverflowError.
Proof.
  unfold get_element_bounds.
  set (bs := get_or element "bounds" "").
  assert (Hfirst : exists o,
            (if nonempty bs then parse_bounds bs else Ok None) = Ok o
            /\ (o = None -> bs = "" \/ parse_bounds bs = Ok None)).
  { destruct bs as [|c r] eqn:Eb; cbn [nonempty].
    - exists None. auto.
    - destruct (parse_bounds_never_raises (String c r)) as [o Ho].
      exists o. split; [exact Ho|]. intros ->. right; exact Ho. }
  destruct Hfirst as (o & -> & Ho). cbn [bind].
  destruct o as [b|]; [discriminate|].
  specialize (Ho eq_refl).
  destruct (nonempty (get_or element "x" "")); cbn [andb];
    [|discriminate].
  destruct (nonempty (get_or element "y" "")); cbn [andb];
    [|discriminate].
  destruct (nonempty (get_or element "width" "")); cbn [andb];
    [|discriminate].
  destruct (nonempty (get_or element "height" "")); cbn [andb];
    [|discriminate].
  intros H.
  assert (He : e = OverflowError).
  { revert H. unfold try_except.
    destruct (int_float (get_or element "x" "")) as [x|ex] eqn:Ex; cbn [bind].
    2:{ destruct (int_float_raises _ _ Ex) as [->| ->]; cbn;
          intros H; [discriminate|injection H as <-; reflexivity]. }
    destruct (int_float (get_or element "y" "")) as [y|ey] eqn:Ey; cbn [bind].
    2:{ destruct (int_float_raises _ _ Ey) as [->| ->]; cbn;
          intros H; [discriminate|injection H as <-; reflexivity]. }
    destruct (int_float (get_or element "width" "")) as [w|ew] eqn:Ew; cbn [bind].
    2:{ destruct (int_float_raises _ _ Ew) as [->| ->]; cbn;
          intros H; [discriminate|injection H as <-; reflexivity]. }
    destruct (int_float (get_or element "height" "")) as [h|eh] eqn:Eh; cbn [bind].
    2:{ destruct (int_float_raises _ _ Eh) as [->| ->]; cbn;
          intros H; [discriminate|injection H as <-; reflexivity]. }
    discriminate. }
  exact He.
Qed.

End ElementBoundsRaise.

(** X4: [get_element_bounds] raises nothing but [OverflowError], and only
    when the [bounds] attribute gave no box and the four attributes [x],
    [y], [width], [height] are all present and not empty. *)
Theorem get_element_bounds_raises_only_overflow (element : XNode) (e : exn) :
  get_element_bounds element = Raise e ->
  e = OverflowError
  /\ (get_or element "bounds" "" = ""
      \/ parse_bounds (get_or element "bounds" "") = Ok None)
  /\ nonempty (get_or element "x" "") = true
  /\ nonempty (get_or element "y" "") = true
  /\ nonempty (get_or element "width" "") = true
  /\ nonempty (get_or element "height" "") = true.
Proof.
  intros Horig. pose proof (get_element_bounds_raise element e Horig) as He.
  revert Horig.
  unfold get_element_bounds.
  set (bs := get_or element "bounds" "").
  assert (Hfirst : exists o,
            (if nonempty bs then parse_bounds bs else Ok None) = Ok o
            /\ (o = None -> bs = "" \/ parse_bounds bs = Ok None)).
  { destruct bs as [|c r] eqn:Eb; cbn [nonempty].
    - exists None. auto.
    - destruct (parse_bounds_never_raises (String c r)) as [o Ho].
      exists o. split; [exact Ho|]. intros ->. right; exact Ho. }
  destruct Hfirst as (o & -> & Ho). cbn [bind].
  destruct o as [b|]; [discriminate|].
  specialize (Ho eq_refl).
  destruct (nonempty (get_or element "x" "")); cbn [andb];
    [|discriminate].
  destruct (nonempty (get_or element "y" "")); cbn [andb];
    [|discriminate].
  destruct (nonempty (get_or element "width" "")); cbn [andb];
    [|discriminate].
  destruct (nonempty (get_or element "height" "")); cbn [andb];
    [|discriminate].
  intros H.
  repeat split; auto.
Qed.

Lemma get_element_bounds_raises_only_overflow_witness :
  OverflowError = OverflowError
  /\ nonempty (get_or (button "inf" "0" "20" "20") "x" "") = true.
Proof.
  destruct (get_element_bounds_raises_only_overflow
              (button "inf" "0" "20" "20") OverflowError
              ltac:(vm_compute; reflexivity)) as (H1 & _ & H2 & _).
  split; [exact H1|exact H2].
Defined.

(** X5: [is_interactive_element] answers [True] exactly for a node whose
    tag contains an interactive type name, that is not marked disabled or
    invisible, and whose bounds have a positive width and height (the test
    for the all-zero box rejects nothing more); and it raises only when all
    but the bounds hold and [get_element_bounds] raises. *)
Theorem is_interactive_element_iff (element : XNode) :
  (is_interactive_element element = Ok true <->
     interactive_type element = true
     /\ get_or element "enabled" "true" <> "false"
     /\ get_or element "visible" "true" <> "false"
     /\ exists b, get_element_bounds element = Ok (Some b)
                  /\ 0 < width_of b /\ 0 < height_of b)
  /\ (forall e, is_interactive_element element = Raise e <->
        interactive_type element = true
        /\ get_or element "enabled" "true" <> "false"
        /\ get_or element "visible" "true" <> "false"
        /\ get_element_bounds element = Raise e).
Proof.
  unfold is_interactive_element. fold (interactive_type element).
  destruct (interactive_type element); cbn [negb].
  2:{ split; [split; [discriminate|intros [H _]; discriminate]|].
      intros e; split; [discriminate|intros [H _]; discriminate]. }
  destruct (String.eqb (get_or element "enabled" "true") "false") eqn:Een.
  { apply String.eqb_eq in Een.
    split; [split; [discriminate|intros (_ & H & _); congruence]|].
    intros e; split; [discriminate|intros (_ & H & _); congruence]. }
  destruct (String.eqb (get_or element "visible" "true") "false") eqn:Evi.
  { apply String.eqb_eq in Evi.
    split; [split; [discriminate|intros (_ & _ & H & _); congruence]|].
    intros e; split; [discriminate|intros (_ & _ & H & _); congruence]. }
  apply String.eqb_neq in Een, Evi.
  destruct (get_element_bounds element) as [[[[x1 y1] [x2 y2]]|]|e0];
    cbn [bind].
  - unfold width_of, height_of.
    destruct ((x2 - x1 <=? 0) || (y2 - y1 <=? 0)) eqn:Es.
    + split.
      * split; [discriminate|].
        intros (_ & _ & _ & b & Hb & Hw & Hh). injection Hb as <-.
        cbn [fst snd] in Hw, Hh. apply orb_true_iff in Es as [Es|Es];
          apply Z.leb_le in Es; lia.
      * intros e; split; [discriminate|intros (_ & _ & _ & H); discriminate].
    + apply orb_false_iff in Es as [Ew Eh]. apply Z.leb_gt in Ew, Eh.
      assert (Ez : (x1 =? 0) && (y1 =? 0) && (x2 =? 0) && (y2 =? 0) = false).
      { apply not_true_iff_false. intros Hz.
        apply andb_true_iff in Hz as [Hz _].
        apply andb_true_iff in Hz as [Hz H2].
        apply andb_true_iff in Hz as [H0 H1].
        apply Z.eqb_eq in H0, H2. lia. }
      rewrite Ez. split.
      * split; [intros _|reflexivity].
        repeat split; auto. eexists. split; [reflexivity|].
        cbn [fst snd]. lia.
      * intros e; split; [discriminate|intros (_ & _ & _ & H); discriminate].
  - split.
    + split; [discriminate|].
      intros (_ & _ & _ & b & Hb & _). discriminate.
    + intros e; split; [discriminate|intros (_ & _ & _ & H); discriminate].
  - split.
    + split; [discriminate|].
      intros (_ & _ & _ & b & Hb & _). discriminate.
    + intros e; split.
      * intros H; injection H as <-. repeat split; auto.
      * intros (_ & _ & _ & H). injection H as <-. reflexivity.
Qed.

Section DocumentOrder.

Lemma visit_all_picks a i items :
  forall l l', visit_all a i items l = Ok l' ->
  exists added,
    l' = (l ++ added)%list
    /\ picks (fun item e => made_from a i (fst item) (snd item) e) items added.
Proof.
  induction items as [|[p n] items IH]; intros l l'; cbn [visit_all].
  - intros H; injection H as <-. exists []. rewrite app_nil_r.
    split; [reflexivity|constructor].
  - destruct (visit a i p n l) as [l1|e] eqn:E; cbn [bind]; [|discriminate].
    intros H. destruct (IH _ _ H) as (added & -> & Hp).
    apply visit_cases in E
      as [[_ ->]|[(b & _ & _ & _ & ->)|(b & u & Hi & Hb & _ & Hu & ->)]].
    + exists added. split; [reflexivity|constructor; exact Hp].
    + exists added. split; [reflexivity|constructor; exact Hp].
    + exists (element_of a u n b :: added). rewrite <- app_assoc.
      split; [reflexivity|].
      apply picks_take; [|exact Hp].
      repeat split; auto. exists u. split; [exact Hu|reflexivity].
Qed.

Lemma picks_length {A B : Type} (R : A -> B -> Prop) (q : A -> bool)
    (l : list A) (out : list B) :
  (forall a b, R a b -> q a = true) ->
  picks R l out -> (List.length out <= List.length (filter q l))%nat.
Proof.
  intros Hq. induction 1 as [|a l out _ IH|a b l out Hr _ IH]; cbn [filter].
  - apply Nat.le_refl.
  - destruct (q a); cbn [List.length]; lia.
  - rewrite (Hq _ _ Hr). cbn [List.length]. lia.
Qed.

(** When a pass returns and meets a qualifying node, its list is not
    empty afterwards. *)
Lemma visit_all_nonempty a i items :
  forall l l', visit_all a i items l = Ok l' ->
  l <> [] \/ (exists item, In item items /\ qualifies (snd item) = true) ->
  l' <> [].
Proof.
  induction items as [|[p n] items IH]; intros l l'; cbn [visit_all].
  - intros H; injection H as <-. intros [Hl|(item & [] & _)]. exact Hl.
  - destruct (visit a i p n l) as [l1|e] eqn:E; cbn [bind]; [|discriminate].
    intros H Hor. apply (IH _ _ H).
    apply visit_cases in E
      as [[Hi ->]|[(b & _ & _ & Hc & ->)|(b & u & _ & _ & _ & _ & ->)]].
    + destruct Hor as [Hl|(item & [<-|Hin] & Hq)]; [left; exact Hl| |].
      * unfold qualifies in Hq. cbn [snd] in Hq. rewrite Hi in Hq. discriminate.
      * right. exists item. auto.
    + left. apply close_to_true in Hc as (e & He & _).
      intros ->. destruct He.
    + left. intros Hnil. apply app_eq_nil in Hnil as [_ Hnil]. discriminate.
Qed.

End DocumentOrder.

(** X6: a pass only appends to the list it is given, and what it appends is
    made from accepted nodes of the document, one element per node, in the
    order of the depth-first traversal, parent before children; it appends
    nothing when the markup does not parse. *)
Theorem pass_appends_in_document_order (fromstring : string -> option XNode)
    (xml : string) (elem_list : list IOSElement) (a : string) (i : bool)
    (l : list IOSElement) :
  traverse_ios_tree fromstring xml elem_list a i = Ok l ->
  exists added,
    l = (elem_list ++ added)%list
    /\ (fromstring xml = None -> added = [])
    /\ (forall root, fromstring xml = Some root ->
          picks (fun item e => made_from a i (fst item) (snd item) e)
            (preorder root []) added).
Proof.
  intros H.
  apply traverse_ios_tree_cases in H as [[En ->]|(root & Er & H)].
  - exists []. rewrite app_nil_r. split; [reflexivity|].
    split; [reflexivity|]. intros root Er. congruence.
  - apply visit_all_picks in H as (added & -> & Hp).
    exists added. split; [reflexivity|]. split; [congruence|].
    intros root' Er'. rewrite Er in Er'. injection Er' as <-. exact Hp.
Qed.

Lemma pass_appends_in_document_order_witness :
  exists added,
    row_elements = ([] ++ added)%list
    /\ picks (fun item e => made_from "clickable" true (fst item) (snd item) e)
         (preorder row_doc []) added.
Proof.
  destruct (pass_appends_in_document_order (parse_as row_xml row_doc) row_xml
              [] "clickable" true row_elements ltac:(vm_compute; reflexivity))
    as (added & E & _ & Hp).
  exists added. split; [exact E|]. apply Hp. vm_compute; reflexivity.
Defined.

(** X7: [get_ios_elements] returns the empty list for a blank string and
    for markup that does not parse; for a document it returns at most one
    element per qualifying node, in document order, and an empty list only
    when no node of the document qualifies. *)
Theorem output_against_candidates (fromstring : string -> option XNode)
    (xml : string) (out : list IOSElement) :
  get_ios_elements fromstring xml = Ok out ->
  (is_blank xml = true \/ fromstring xml = None -> out = [])
  /\ (forall root,
        is_blank xml = false -> fromstring xml = Some root ->
        picks (fun item e => made_from "clickable" true (fst item) (snd item) e)
          (preorder root []) out
        /\ (List.length out <= List.length (candidates root))%nat
        /\ (out = [] <-> candidates root = [])).
Proof.
  intros H.
  assert (Hblank : is_blank xml = true -> out = []).
  { intros Hb. apply get_ios_elements_cases in H
      as [[_ ->]|(cl & fl & Hb' & _)]; [reflexivity|congruence]. }
  split.
  - intros [Hb|Hn]; [exact (Hblank Hb)|].
    destruct (is_blank xml) eqn:Hb; [exact (Hblank eq_refl)|].
    destruct (merged_is_clickable_pass fromstring xml out H Hb) as [Hp _].
    unfold traverse_ios_tree in Hp. rewrite Hn in Hp.
    injection Hp as <-. reflexivity.
  - intros root Hb Er.
    destruct (merged_is_clickable_pass fromstring xml out H Hb) as [Hp _].
    apply traverse_ios_tree_cases in Hp as [[En _]|(root' & Er' & Hv)];
      [congruence|].
    rewrite Er in Er'. injection Er' as <-.
    destruct (visit_all_picks _ _ _ _ _ Hv) as (added & E & Hpk).
    cbn [app] in E. subst added.
    assert (Hlen : (List.length out <= List.length (candidates root))%nat).
    { unfold candidates.
      assert (Ef : forall l : list (list XNode * XNode),
                 List.length (filter qualifies (map snd l))
                 = List.length (filter (fun item => qualifies (snd item)) l)).
      { induction l as [|x l IH]; [reflexivity|]. cbn [filter map].
        destruct (qualifies (snd x)); cbn [List.length]; rewrite IH; reflexivity. }
      rewrite Ef.
      apply (picks_length _ (fun item => qualifies (snd item)) _ _ ) in Hpk;
        [exact Hpk|].
      intros item e (Hi & _). unfold qualifies. rewrite Hi. reflexivity. }
    split; [exact Hpk|]. split; [exact Hlen|].
    split.
    + intros ->. destruct (candidates root) as [|c cs] eqn:Ec; [reflexivity|].
      exfalso. apply (visit_all_nonempty _ _ _ _ _ Hv); [|reflexivity].
      right.
      assert (Hin : In c (candidates root)) by (rewrite Ec; left; reflexivity).
      unfold candidates in Hin. apply filter_In in Hin as [Hin Hq].
      apply in_map_iff in Hin as (item & <- & Hin).
      exists item. auto.
    + intros Ec. rewrite Ec in Hlen. destruct out; [reflexivity|].
      cbn in Hlen. lia.
Qed.

Lemma output_against_candidates_witness :
  (List.length row_elements <= List.length (candidates row_doc))%nat
  /\ (row_elements = [] <-> candidates row_doc = []).
Proof.
  destruct (output_against_candidates (parse_as row_xml row_doc) row_xml
              row_elements ltac:(vm_compute; reflexivity)) as [_ H].
  destruct (H row_doc ltac:(vm_compute; reflexivity)
              ltac:(vm_compute; reflexivity)) as (_ & H1 & H2).
  split; [exact H1|exact H2].
Defined.

Section Fetching.

Variable requests_get : string -> reply.

Lemma try_urls_cons (url : string) (rest : list string) :
  try_urls requests_get (url :: rest)
  = match answer_of (requests_get url) with
    | Some source => Some source
    | None => try_urls requests_get rest
    end.
Proof.
  cbn [try_urls]. unfold answer_of.
  destruct (requests_get url) as [| | |status body text]; try reflexivity.
  destruct (status =? 200); reflexivity.
Qed.

Lemma try_urls_sound (urls : list string) (s : string) :
  try_urls requests_get urls = Some s ->
  exists url, In url urls /\ answer_of (requests_get url) = Some s.
Proof.
  induction urls as [|url rest IH]; [discriminate|].
  rewrite try_urls_cons.
  destruct (answer_of (requests_get url)) as [src|] eqn:E.
  - intros H; injection H as <-. exists url. split; [left; reflexivity|exact E].
  - intros H. destruct (IH H) as (u & Hin & Hu).
    exists u. split; [right; exact Hin|exact Hu].
Qed.

End Fetching.

Section Slashes.

Lemma rstrip_char_snoc (c : ascii) (s : string) :
  rstrip_char c (s ++ String c "") = rstrip_char c s.
Proof.
  induction s as [|d s IH]; cbn [append rstrip_char].
  - rewrite Ascii.eqb_refl. reflexivity.
  - rewrite IH. reflexivity.
Qed.

Lemma replace_absent (c : ascii) (r new s : string) :
  all_chars (is_not c) s = true -> replace (String c r) new s = s.
Proof.
  unfold replace. induction s as [|a s IH]; [reflexivity|].
  cbn [all_chars]. intros H. apply andb_true_iff in H as [Ha Hs].
  rewrite replace_from_O.
  assert (P : prefix (String c r) (String a s) = false).
  { cbn -[ascii_dec]. destruct (ascii_dec c a) as [->|N]; [|reflexivity].
    unfold is_not in Ha. rewrite Ascii.eqb_refl in Ha. discriminate Ha. }
  rewrite P, IH by exact Hs. reflexivity.
Qed.

End Slashes.

(** X8: the payload is found in each of the three shapes of answer: under
    [value]; under [source] when there is no [value]; and under [source]
    inside a [value] that is itself an object. *)
Theorem extract_source_shapes (items : list (string * json)) (s : string) :
  dict_lookup "value" items = JStr s
  \/ (dict_lookup "value" items = JNull /\ dict_lookup "source" items = JStr s)
  \/ (exists inner,
        dict_lookup "value" items = JDict inner
        /\ dict_lookup "source" inner = JStr s /\ nonempty s = true) ->
  extract_source (JDict items) = JStr s.
Proof.
  unfold extract_source. cbn [is_dict json_get].
  intros [H|[[Hv Hs]|(inner & Hv & Hs & Hn)]].
  - rewrite H. reflexivity.
  - rewrite Hv. cbn [is_dict is_null andb]. rewrite Hs. reflexivity.
  - rewrite Hv. cbn [is_dict json_get]. rewrite Hs.
    unfold json_or. cbn [json_truth]. rewrite Hn. reflexivity.
Qed.

Lemma extract_source_shapes_witness :
  extract_source (JDict [("value", JStr "<App/>"); ("sessionId", JNull)])
  = JStr "<App/>"
  /\ extract_source (JDict [("source", JStr "<App/>")]) = JStr "<App/>"
  /\ extract_source (JDict [("value", JDict [("source", JStr "<App/>")])])
     = JStr "<App/>".
Proof.
  split; [|split].
  - apply extract_source_shapes. left. reflexivity.
  - apply extract_source_shapes. right; left. split; reflexivity.
  - apply extract_source_shapes. right; right.
    exists [("source", JStr "<App/>")]. repeat split; reflexivity.
Defined.

(** X9: with a session, the URL asked first is the one
    [_get_wda_session_url] builds for [source]; when its answer yields a
    source that source is returned, and otherwise the result is that of
    the call without a session. *)
Theorem session_url_then_fallback (requests_get : string -> reply)
    (wda_url : string) (c : ascii) (r : string) :
  get_page_source requests_get wda_url (Some (String c r))
  = match answer_of (requests_get
                       (_get_wda_session_url wda_url (Some (String c r)) "source")) with
    | Some source => Some source
    | None => get_page_source requests_get wda_url None
    end.
Proof.
  unfold get_page_source, urls_to_try, _get_wda_session_url.
  cbn [List.app]. rewrite try_urls_cons. reflexivity.
Qed.

(** X10: a source that [get_page_source] returns comes from an answer with
    status 200 to one of the URLs tried; when no URL is answered with
    status 200 the result is [None]. *)
Theorem page_source_comes_from_200 (requests_get : string -> reply)
    (wda_url : string) (session_id : option string) (s : string) :
  get_page_source requests_get wda_url session_id = Some s ->
  exists url body_json text,
    In url (urls_to_try wda_url session_id)
    /\ requests_get url = Response 200 body_json text
    /\ source_of_200 body_json text = Some s.
Proof.
  intros H. apply try_urls_sound in H as (url & Hin & Ha).
  unfold answer_of in Ha.
  destruct (requests_get url) as [| | |status body text] eqn:E; try discriminate.
  destruct (status =? 200) eqn:Es; [|discriminate].
  apply Z.eqb_eq in Es. subst status.
  exists url, body, text. auto.
Qed.

Lemma page_source_comes_from_200_witness :
  exists url body_json text,
    In url (urls_to_try "http://localhost:8100" None)
    /\ (fun _ : string => Response 200 None "<App/>") url
       = Response 200 body_json text
    /\ source_of_200 body_json text = Some "<App/>".
Proof.
  exact (page_source_comes_from_200 (fun _ => Response 200 None "<App/>")
           "http://localhost:8100" None "<App/>" eq_refl).
Defined.

(** X11: a slash at the end of the service URL changes nothing: the URLs
    built and the source fetched are the same. *)
Theorem trailing_slash_is_ignored (requests_get : string -> reply)
    (wda_url : string) (session_id : option string) (endpoint : string) :
  _get_wda_session_url (wda_url ++ "/") session_id endpoint
  = _get_wda_session_url wda_url session_id endpoint
  /\ urls_to_try (wda_url ++ "/") session_id = urls_to_try wda_url session_id
  /\ get_page_source requests_get (wda_url ++ "/") session_id
     = get_page_source requests_get wda_url session_id.
Proof.
  unfold get_page_source, urls_to_try, _get_wda_session_url.
  change "/" with (String "/" "") at 1 5 7.
  rewrite !rstrip_char_snoc. repeat split; reflexivity.
Qed.

(** X12: markup that arrives in the JSON wrapper starting with [<], with
    no white space around it and no backslash in it, is returned exactly
    as it is. *)
Theorem plain_markup_returned_verbatim (requests_get : string -> reply)
    (wda_url : string) (data : json) (text s : string) :
  requests_get (rstrip_char "/" wda_url ++ "/source")
  = Response 200 (Some data) text ->
  extract_source data = JStr s ->
  startswith s "<" = true ->
  strip s = s ->
  all_chars (is_not "\") s = true ->
  get_page_source requests_get wda_url None = Some s.
Proof.
  intros Hr Hx Hs Hstrip Hb.
  unfold get_page_source, urls_to_try. cbn [List.app].
  rewrite try_urls_cons, Hr. cbn [answer_of Z.eqb Pos.eqb].
  unfold source_of_200. rewrite Hx.
  destruct s as [|a s']; [discriminate Hs|].
  assert (Ea : a = "<"%char).
  { revert Hs. unfold startswith. cbn -[ascii_dec].
    destruct (ascii_dec "<" a) as [<-|N]; [reflexivity|discriminate]. }
  subst a.
  assert (Eu : unquote_unescape (String "<" s') = String "<" s').
  { unfold unquote_unescape. rewrite Hstrip.
    assert (Q1 : startswith (String "<" s') dquote = false) by reflexivity.
    assert (Q2 : startswith (String "<" s') squote = false) by reflexivity.
    rewrite Q1, Q2. cbn [andb orb].
    unfold backslash, chr. cbn [append].
    change (ascii_of_nat 92) with "\"%char.
    do 5 rewrite (replace_absent _ _ _ (String "<" s') Hb). reflexivity. }
  rewrite Eu, Hstrip. cbn [nonempty String.length Nat.ltb Nat.leb andb].
  destruct (looks_like_xml (String "<" s')); reflexivity.
Qed.

Lemma plain_markup_returned_verbatim_witness :
  get_page_source
    (fun _ => Response 200 (Some (JDict [("value", JStr "<App name='a b'/>")])) "")
    "http://localhost:8100" None
  = Some "<App name='a b'/>".
Proof.
  apply (plain_markup_returned_verbatim _ _
           (JDict [("value", JStr "<App name='a b'/>")]) "");
    reflexivity.
Defined.

Section BackAndForth.

Lemma physical_of_logical_back (x y : Z) :
  Z.abs x < 2 ^ 52 -> Z.abs y < 2 ^ 52 ->
  _physical_to_logical (x * SCALE_FACTOR) (y * SCALE_FACTOR) = Ok (x, y).
Proof.
  intros Hx Hy. unfold _physical_to_logical, SCALE_FACTOR.
  rewrite (int_truediv_3_small (x * 3)), (int_truediv_3_small (y * 3)) by lia.
  cbn [bind]. rewrite !Z.quot_mul by lia. reflexivity.
Qed.

End BackAndForth.

(** X13: logical to physical and back is exact: for logical coordinates
    below [2^52] in absolute value, [_physical_to_logical] undoes
    [_logical_to_physical]. *)
Theorem logical_round_trip_exact (x y : Z) :
  Z.abs x < 2 ^ 52 -> Z.abs y < 2 ^ 52 ->
  _physical_to_logical (fst (_logical_to_physical x y))
    (snd (_logical_to_physical x y)) = Ok (x, y).
Proof.
  intros Hx Hy. unfold _logical_to_physical. cbn [fst snd].
  apply physical_of_logical_back; assumption.
Qed.

Lemma logical_round_trip_exact_witness :
  _physical_to_logical (fst (_logical_to_physical 393 (-852)))
    (snd (_logical_to_physical 393 (-852))) = Ok (393, -852).
Proof.
  apply logical_round_trip_exact; vm_compute; reflexivity.
Defined.

Section Apps.

Import IOSActionHandler.

Lemma lookup_In (k v : string) (l : list (string * string)) :
  lookup k l = Some v -> In (k, v) l.
Proof.
  induction l as [|[k' v'] l IH]; cbn [lookup]; [discriminate|].
  destruct (String.eqb k' k) eqn:E.
  - apply String.eqb_eq in E. intros H; injection H as <-. subst k'.
    left; reflexivity.
  - intros H. right. apply IH, H.
Qed.

Lemma packages_distinct :
  forallb (fun kv =>
             match app_of_package APP_PACKAGES_IOS (snd kv) with
             | Some app_name => String.eqb app_name (fst kv) && nonempty (snd kv)
             | None => false
             end) APP_PACKAGES_IOS = true.
Proof. vm_compute. reflexivity. Qed.

End Apps.

(** X14: the table of apps reads both ways: the bundle that [launch_app]
    posts for a known app name is one that [get_current_app] maps back to
    that very name; for a name not in the table [launch_app] returns
    [False] whatever the server would answer. *)
Theorem app_names_round_trip
    (requests_post : string -> json -> IOSActionHandler.post_reply)
    (requests_get : string -> reply)
    (wda_url : string) (session_id : option string) (app_name : string) :
  (lookup app_name APP_PACKAGES_IOS = None ->
   IOSActionHandler.launch_app requests_post wda_url session_id app_name = false)
  /\ (forall bundle_id text,
        lookup app_name APP_PACKAGES_IOS = Some bundle_id ->
        requests_get (rstrip_char "/" wda_url ++ "/wda/activeAppInfo")
        = Response 200
            (Some (JDict [("value", JDict [("bundleId", JStr bundle_id)])])) text ->
        IOSActionHandler.launch_app requests_post wda_url session_id app_name
        = IOSActionHandler.accepted
            (requests_post
               (_get_wda_session_url wda_url session_id "wda/apps/launch")
               (JDict [("bundleId", JStr bundle_id)]))
        /\ IOSActionHandler.get_current_app requests_get wda_url = app_name).
Proof.
  split.
  - intros H. unfold IOSActionHandler.launch_app. rewrite H. reflexivity.
  - intros bundle_id text Hl Hr. split.
    + unfold IOSActionHandler.launch_app. rewrite Hl. reflexivity.
    + unfold IOSActionHandler.get_current_app. rewrite Hr.
      cbn [Z.eqb Pos.eqb existsb fst String.eqb Ascii.eqb Bool.eqb orb
             dict_lookup].
      pose proof packages_distinct as Hd. rewrite forallb_forall in Hd.
      specialize (Hd _ (lookup_In _ _ _ Hl)). cbn [fst snd] in Hd.
      destruct (IOSActionHandler.app_of_package APP_PACKAGES_IOS bundle_id)
        as [found|]; [|discriminate Hd].
      apply andb_true_iff in Hd as [Hn Hb].
      apply String.eqb_eq in Hn. rewrite Hb. exact Hn.
Qed.

Lemma app_names_round_trip_witness :
  IOSActionHandler.launch_app (fun _ _ => IOSActionHandler.PostStatus 200)
    "http://localhost:8100" None "Chrome" = false
  /\ IOSActionHandler.get_current_app
       (fun _ => Response 200
                   (Some (JDict [("value",
                                  JDict [("bundleId", JStr "com.apple.Maps")])])) "")
       "http://localhost:8100" = "Maps".
Proof.
  split.
  - apply (proj1 (app_names_round_trip
                    (fun _ _ => IOSActionHandler.PostStatus 200)
                    (fun _ => Timeout) "http://localhost:8100" None "Chrome")).
    reflexivity.
  - apply (proj2 (app_names_round_trip
                    (fun _ _ => IOSActionHandler.PostStatus 200)
                    (fun _ => Response 200
                       (Some (JDict [("value",
                                      JDict [("bundleId", JStr "com.apple.Maps")])])) "")
                    "http://localhost:8100" None "Maps")
             "com.apple.Maps" "" eq_refl eq_refl).
Defined.

Section Addressing.

Import Executor.

(** A valid index resolves to the element at that position and taps the
    physical point of its center. *)
Lemma tap_by_index_valid (self : IOSExecutor) (index : Z) :
  1 <= index <= Z.of_nat (List.length (elem_list self)) ->
  exists e,
    nth_error (elem_list self) (Z.to_nat (index - 1)) = Some e
    /\ snd (tap_by_index self index)
       = inl (TapDone (fst (center (bbox e)) * SCALE_FACTOR)
                (snd (center (bbox e)) * SCALE_FACTOR)).
Proof.
  intros Hi.
  destruct (nth_error (elem_list self) (Z.to_nat (index - 1))) as [e|] eqn:En.
  2:{ apply nth_error_None in En. lia. }
  exists e. split; [reflexivity|].
  unfold tap_by_index.
  destruct (elem_list self) as [|e0 l0] eqn:El; [cbn in Hi; lia|].
  assert (E : (0 <? index) && (index <=? Z.of_nat (List.length (e0 :: l0))) = true).
  { apply andb_true_iff. split; [apply Z.ltb_lt|apply Z.leb_le]; lia. }
  rewrite E. cbn [negb]. unfold subscript.
  assert (E2 : (0 <=? index - 1)
               && (index - 1 <? Z.of_nat (List.length (e0 :: l0))) = true).
  { apply andb_true_iff. split; [apply Z.leb_le|apply Z.ltb_lt]; lia. }
  rewrite E2, En.
  destruct e as [u [tl br] a t nm lb idn]. reflexivity.
Qed.

End Addressing.

(** X15: [long_press_by_index] addresses elements as [tap_by_index] does:
    for every executor and index both fail alike, or both succeed at the
    same physical point. *)
Theorem long_press_addresses_like_tap (self : Executor.IOSExecutor) (index : Z) :
  match snd (Executor.tap_by_index self index),
        snd (IOSExecutorMethods.long_press_by_index self index) with
  | inl (Executor.TapDone x y), inl (IOSExecutorMethods.LongPressDone x' y') =>
      x = x' /\ y = y'
  | inr e, inr e' => e = e'
  | _, _ => False
  end.
Proof.
  unfold Executor.tap_by_index, IOSExecutorMethods.long_press_by_index.
  destruct (Executor.elem_list self) as [|e0 l0]; [reflexivity|].
  destruct (negb _); [reflexivity|].
  destruct (Executor.subscript (e0 :: l0) (index - 1)) as [e|]; [|reflexivity].
  destruct e as [u [tl br] a t nm lb idn]. cbn. auto.
Qed.

(** X16: [wait] never sleeps a negative time nor more than 10 seconds: an
    interval from 0 to 10 is kept, any other becomes 5. *)
Theorem wait_interval_clamped (interval : Z) :
  0 <= fst (IOSExecutorMethods.wait interval) <= 10
  /\ (0 <= interval <= 10 -> fst (IOSExecutorMethods.wait interval) = interval)
  /\ (interval < 0 \/ 10 < interval -> fst (IOSExecutorMethods.wait interval) = 5)
  /\ snd (IOSExecutorMethods.wait interval)
     = IOSExecutorMethods.WaitDone (fst (IOSExecutorMethods.wait interval)).
Proof.
  unfold IOSExecutorMethods.wait. cbn [fst snd].
  destruct ((interval <? 0) || (10 <? interval)) eqn:E.
  - apply orb_true_iff in E. rewrite Z.ltb_lt, Z.ltb_lt in E.
    repeat split; try lia.
  - apply orb_false_iff in E as [E1 E2]. apply Z.ltb_ge in E1, E2.
    repeat split; try lia.
Qed.

Section EndToEnd.

Lemma output_positive_area (fromstring : string -> option XNode)
    (xml : string) (out : list IOSElement) (e : IOSElement) :
  get_ios_elements fromstring xml = Ok out -> In e out ->
  positive_area (bbox e).
Proof.
  intros H He.
  destruct (is_blank xml) eqn:Hb.
  { apply get_ios_elements_cases in H as [[_ ->]|(cl & fl & Hb' & _)];
      [destruct He|congruence]. }
  destruct (merged_is_clickable_pass fromstring xml out H Hb) as [Hp _].
  destruct (pass_origin fromstring xml _ _ _ Hp e He)
    as (root & path & node & _ & _ & Hi & Hbd & _).
  destruct (is_interactive_true node Hi) as (b & Eb & Hw & Hh).
  rewrite Hbd in Eb. injection Eb as <-.
  unfold positive_area, width_of, height_of in *. lia.
Qed.

Lemma center_inside (b : BBox) : positive_area b -> inside (center b) b.
Proof.
  destruct b as [[x1 y1] [x2 y2]]. unfold positive_area, inside, center.
  cbn [fst snd]. intros [Hx Hy].
  pose proof (Z.div_mod (x1 + x2) 2 ltac:(lia)).
  pose proof (Z.mod_pos_bound (x1 + x2) 2 ltac:(lia)).
  pose proof (Z.div_mod (y1 + y2) 2 ltac:(lia)).
  pose proof (Z.mod_pos_bound (y1 + y2) 2 ltac:(lia)).
  lia.
Qed.

End EndToEnd.

(** X17: after [set_elem_list], every index from 1 to the length of the
    list makes [tap_by_index] tap the physical point of a logical point
    that lies inside the box of the element at that position; and that
    logical point is what [_physical_to_logical] gives back for the tap. *)
Theorem tap_lands_inside_element
    (fromstring : string -> option XNode) (read_file : string -> option string)
    (self self' : Executor.IOSExecutor) (xml_path_or_string : string)
    (index : Z) :
  IOSExecutorMethods.set_elem_list fromstring read_file self xml_path_or_string
  = Ok self' ->
  1 <= index <= Z.of_nat (List.length (Executor.elem_list self')) ->
  exists e x y,
    nth_error (Executor.elem_list self') (Z.to_nat (index - 1)) = Some e
    /\ snd (Executor.tap_by_index self' index) = inl (Executor.TapDone x y)
    /\ (x, y) = _logical_to_physical (fst (center (bbox e))) (snd (center (bbox e)))
    /\ inside (center (bbox e)) (bbox e)
    /\ (Z.abs (fst (center (bbox e))) < 2 ^ 52 ->
        Z.abs (snd (center (bbox e))) < 2 ^ 52 ->
        _physical_to_logical x y = Ok (center (bbox e))).
Proof.
  intros Hset Hi.
  unfold IOSExecutorMethods.set_elem_list in Hset.
  destruct (get_ios_elements fromstring _) as [elems|ex] eqn:Hg;
    cbn [bind] in Hset; [|discriminate].
  injection Hset as <-. cbn [Executor.elem_list] in *.
  destruct (tap_by_index_valid
              (Executor.mkExecutor elems (Executor.current_return self)
                 (Executor.taps self)) index Hi) as (e & He & Ht).
  cbn [Executor.elem_list] in He.
  exists e, (fst (center (bbox e)) * SCALE_FACTOR),
         (snd (center (bbox e)) * SCALE_FACTOR).
  split; [exact He|]. split; [exact Ht|]. split; [reflexivity|].
  split.
  - apply center_inside. eapply output_positive_area; [exact Hg|].
    eapply nth_error_In; exact He.
  - intros Hx Hy.
    rewrite (physical_of_logical_back _ _ Hx Hy).
    destruct (center (bbox e)); reflexivity.
Qed.

Lemma tap_lands_inside_element_witness :
  exists e x y,
    nth_error row_elements 1 = Some e
    /\ snd (Executor.tap_by_index (Executor.mkExecutor row_elements None []) 2)
       = inl (Executor.TapDone x y)
    /\ inside (center (bbox e)) (bbox e).
Proof.
  destruct (tap_lands_inside_element (parse_as row_xml row_doc)
              (fun _ => None) (Executor.mkExecutor [] None [])
              (Executor.mkExecutor row_elements None []) row_xml 2
              ltac:(vm_compute; reflexivity)
              ltac:(vm_compute; split; discriminate))
    as (e & x & y & H1 & H2 & _ & H3 & _).
  exists e, x, y. auto.
Defined.

Section ScaleFactor.

Import Labeling.

Lemma Qabs_lt_10 (x : Q) :
  Qltb (Qabs x) (inject_Z 10) = true <-> (- inject_Z 10 < x < inject_Z 10)%Q.
Proof.
  unfold Qltb. rewrite negb_true_iff, <- Qabs_Qlt_condition.
  split.
  - intros H. apply Qnot_le_lt. intros Hle.
    apply Qle_bool_iff in Hle. congruence.
  - intros H. apply not_true_iff_false. intros Hle.
    apply Qle_bool_iff in Hle. exact (Qlt_not_le _ _ H Hle).
Qed.

Lemma near_logical_3 (width logical : Z) :
  near_logical width 3 logical = true
  <-> (logical - 10) * 3 < width < (logical + 10) * 3.
Proof.
  unfold near_logical. rewrite Qabs_lt_10.
  unfold Qlt, Qdiv, Qminus, Qplus, Qopp, Qmult, Qinv, inject_Z. cbn.
  lia.
Qed.

Lemma near_logical_2 (width logical : Z) :
  near_logical width 2 logical = true
  <-> (logical - 10) * 2 < width < (logical + 10) * 2.
Proof.
  unfold near_logical. rewrite Qabs_lt_10.
  unfold Qlt, Qdiv, Qminus, Qplus, Qopp, Qmult, Qinv, inject_Z. cbn.
  lia.
Qed.

End ScaleFactor.

(** X18: what [_get_scale_factor] returns for every width: 1.0 below 1100
    pixels, 3.0 from 1141 to 1208, and the estimate [width / 375] for any
    other width from 1100 on, which is more than 2.9.  The test for the
    2x profile needs a width between 730 and 770, which never gets past
    the test [width >= 1100]: a float 2.0 is never returned. *)
Theorem scale_factor_by_width (height width : Z) :
  (width < 1100 ->
   Labeling._get_scale_factor (Labeling.Image height width) = Labeling.NFloat 1)
  /\ (1141 <= width <= 1208 ->
      Labeling._get_scale_factor (Labeling.Image height width) = Labeling.NFloat 3)
  /\ (1100 <= width <= 1140 \/ 1209 <= width ->
      Labeling._get_scale_factor (Labeling.Image height width)
      = Labeling.NFloat (inject_Z width / 375)
      /\ (inject_Z 1100 / 375 <= inject_Z width / 375)%Q)
  /\ (forall q,
        Labeling._get_scale_factor (Labeling.Image height width) = Labeling.NFloat q ->
        ~ (q == 2)%Q).
Proof.
  assert (H1 : width < 1100 ->
            Labeling._get_scale_factor (Labeling.Image height width)
            = Labeling.NFloat 1).
  { intros H. unfold Labeling._get_scale_factor.
    assert (E : (1100 <=? width) = false) by (apply Z.leb_gt; lia).
    rewrite E. reflexivity. }
  assert (H3 : 1141 <= width <= 1208 ->
            Labeling._get_scale_factor (Labeling.Image height width)
            = Labeling.NFloat 3).
  { intros H. unfold Labeling._get_scale_factor.
    assert (E : (1100 <=? width) = true) by (apply Z.leb_le; lia).
    rewrite E.
    destruct (Labeling.near_logical width 3 393) eqn:N1; [reflexivity|].
    assert (N2 : Labeling.near_logical width 3 390 = true).
    { apply near_logical_3. apply not_true_iff_false in N1.
      rewrite near_logical_3 in N1. lia. }
    rewrite N2. reflexivity. }
  assert (He : 1100 <= width <= 1140 \/ 1209 <= width ->
            Labeling._get_scale_factor (Labeling.Image height width)
            = Labeling.NFloat (inject_Z width / 375)
            /\ (inject_Z 1100 / 375 <= inject_Z width / 375)%Q).
  { intros H. split.
    - unfold Labeling._get_scale_factor.
      assert (E : (1100 <=? width) = true) by (apply Z.leb_le; lia).
      rewrite E.
      assert (N1 : Labeling.near_logical width 3 393 = false).
      { apply not_true_iff_false. rewrite near_logical_3. lia. }
      assert (N2 : Labeling.near_logical width 3 390 = false).
      { apply not_true_iff_false. rewrite near_logical_3. lia. }
      assert (N3 : Labeling.near_logical width 2 375 = false).
      { apply not_true_iff_false. rewrite near_logical_2. lia. }
      rewrite N1, N2, N3. reflexivity.
    - unfold Qle, Qdiv, Qmult, Qinv, inject_Z. cbn. lia. }
  split; [exact H1|]. split; [exact H3|]. split; [exact He|].
  intros q Hq.
  assert (Hc : width < 1100 \/ 1141 <= width <= 1208
               \/ (1100 <= width <= 1140 \/ 1209 <= width)) by lia.
  destruct Hc as [Hc|[Hc|Hc]].
  - rewrite (H1 Hc) in Hq. injection Hq as <-. intros E. discriminate E.
  - rewrite (H3 Hc) in Hq. injection Hq as <-. intros E. discriminate E.
  - destruct (He Hc) as [Eq Hle]. rewrite Eq in Hq. injection Hq as <-.
    intros E. rewrite E in Hle. revert Hle.
    unfold Qle, Qdiv, Qmult, Qinv, inject_Z. cbn. lia.
Qed.

Lemma scale_factor_by_width_witness :
  Labeling._get_scale_factor (Labeling.Image 1334 750) = Labeling.NFloat 1
  /\ Labeling._get_scale_factor (Labeling.Image 2532 1170) = Labeling.NFloat 3.
Proof.
  split.
  - apply (proj1 (scale_factor_by_width 1334 750)). lia.
  - apply (proj1 (proj2 (scale_factor_by_width 2532 1170))). lia.
Defined.

Section Labels.

Import Drawing.

Variable scaled : Z -> Z.
Variables (record_mode dark_mode ps : bool).

Lemma draw_from_labels (elem_list : list IOSElement) :
  forall (count : Z) (d : drawn),
    In d (draw_from scaled record_mode dark_mode ps count elem_list) ->
    exists i e,
      nth_error elem_list i = Some e
      /\ text d = str_of_int (count + Z.of_nat i)
      /\ colour d = colour_of record_mode dark_mode ps e
      /\ scaled (fst (fst (bbox e))) < scaled (fst (snd (bbox e)))
      /\ scaled (snd (fst (bbox e))) < scaled (snd (snd (bbox e))).
Proof.
  induction elem_list as [|elem rest IH]; intros count d; cbn [draw_from];
    [intros []|].
  assert (Hrest : In d (draw_from scaled record_mode dark_mode ps (count + 1) rest) ->
            exists i e,
              nth_error (elem :: rest) i = Some e
              /\ text d = str_of_int (count + Z.of_nat i)
              /\ colour d = colour_of record_mode dark_mode ps e
              /\ scaled (fst (fst (bbox e))) < scaled (fst (snd (bbox e)))
              /\ scaled (snd (fst (bbox e))) < scaled (snd (snd (bbox e)))).
  { intros H. destruct (IH _ _ H) as (i & e & Hn & Ht & Hc).
    exists (S i), e. split; [exact Hn|]. split; [|exact Hc].
    rewrite Ht. f_equal. lia. }
  destruct (negb _); [exact Hrest|].
  destruct ((scaled (fst (snd (bbox elem))) <=? scaled (fst (fst (bbox elem))))
            || (scaled (snd (snd (bbox elem))) <=? scaled (snd (fst (bbox elem)))))
    eqn:Es; [exact Hrest|].
  intros [<-|H]; [|exact (Hrest H)].
  apply orb_false_iff in Es as [E1 E2]. apply Z.leb_gt in E1, E2.
  exists O, elem. cbn [nth_error text colour].
  repeat split; auto. f_equal. lia.
Qed.

(** When the scaling keeps the order of coordinates and every scaled
    coordinate is within the bounds, each element of positive area gets
    its label. *)
Lemma draw_from_all (elem_list : list IOSElement) :
  (forall a b, a < b -> scaled a < scaled b) ->
  (forall e, In e elem_list ->
     positive_area (bbox e)
     /\ in_bounds (scaled (fst (fst (bbox e)))) = true
     /\ in_bounds (scaled (snd (fst (bbox e)))) = true
     /\ in_bounds (scaled (fst (snd (bbox e)))) = true
     /\ in_bounds (scaled (snd (snd (bbox e)))) = true) ->
  forall count,
    map text (draw_from scaled record_mode dark_mode ps count elem_list)
    = map (fun i => str_of_int (count + Z.of_nat i))
        (seq 0 (List.length elem_list)).
Proof.
  intros Hmono. induction elem_list as [|elem rest IH]; intros Hall count;
    [reflexivity|].
  cbn [draw_from List.length seq map].
  destruct (Hall elem (or_introl eq_refl)) as ([Hx Hy] & B1 & B2 & B3 & B4).
  rewrite B1, B2, B3, B4. cbn [andb negb].
  assert (E1 : (scaled (fst (snd (bbox elem))) <=? scaled (fst (fst (bbox elem))))
               = false) by (apply Z.leb_gt, Hmono, Hx).
  assert (E2 : (scaled (snd (snd (bbox elem))) <=? scaled (snd (fst (bbox elem))))
               = false) by (apply Z.leb_gt, Hmono, Hy).
  rewrite E1, E2. cbn [orb map text].
  rewrite Z.add_0_r. f_equal.
  rewrite IH by (intros e He; apply Hall; right; exact He).
  rewrite <- seq_shift, map_map.
  apply map_ext. intros i. f_equal. lia.
Qed.

End Labels.

Section Clickable.

Lemma output_attrib_clickable (fromstring : string -> option XNode)
    (xml : string) (out : list IOSElement) (e : IOSElement) :
  get_ios_elements fromstring xml = Ok out -> In e out ->
  attrib e = "clickable".
Proof.
  intros H He.
  destruct (is_blank xml) eqn:Hb.
  { apply get_ios_elements_cases in H as [[_ ->]|(cl & fl & Hb' & _)];
      [destruct He|congruence]. }
  destruct (merged_is_clickable_pass fromstring xml out H Hb) as [Hp _].
  destruct (pass_origin fromstring xml _ _ _ Hp e He)
    as (root & path & node & _ & _ & _ & _ & u & _ & ->).
  reflexivity.
Qed.

End Clickable.



(** X20: on the list [get_ios_elements] returns, record mode draws every
    label in the colour of clickable elements; the colours of focusable
    and other elements are never used. *)
Theorem record_mode_labels_all_clickable (fromstring : string -> option XNode)
    (xml : string) (out : list IOSElement) (scaled : Z -> Z)
    (dark_mode ps : bool) (d : Drawing.drawn) :
  get_ios_elements fromstring xml = Ok out ->
  In d (Drawing.draw_bbox_multi_ios scaled true dark_mode ps out) ->
  Drawing.colour d = (250, 0, 0).
Proof.
  intros H Hd. unfold Drawing.draw_bbox_multi_ios in Hd.
  apply draw_from_labels in Hd as (i & e & Hn & _ & Hc & _).
  rewrite Hc. unfold Drawing.colour_of.
  rewrite (output_attrib_clickable fromstring xml out e H
             (nth_error_In _ _ Hn)).
  reflexivity.
Qed.

Lemma record_mode_labels_all_clickable_witness :
  Drawing.colour (Drawing.mkDrawn "1" 40 40 (250, 0, 0)) = (250, 0, 0).
Proof.
  apply (record_mode_labels_all_clickable (parse_as row_xml row_doc) row_xml
           row_elements (fun c => c * 3) false true);
    [vm_compute; reflexivity|vm_compute; left; reflexivity].
Defined.

(** X21: when the scaling keeps the order of coordinates and the scaled
    coordinates of every box stay within one million, every element that
    [get_ios_elements] returns is labelled: the labels are the numbers
    from 1 to the length of the list, in order, with no gap. *)
Theorem every_element_is_labelled (fromstring : string -> option XNode)
    (xml : string) (out : list IOSElement) (scaled : Z -> Z)
    (record_mode dark_mode ps : bool) :
  get_ios_elements fromstring xml = Ok out ->
  (forall a b, a < b -> scaled a < scaled b) ->
  (forall e, In e out ->
     Drawing.in_bounds (scaled (fst (fst (bbox e)))) = true
     /\ Drawing.in_bounds (scaled (snd (fst (bbox e)))) = true
     /\ Drawing.in_bounds (scaled (fst (snd (bbox e)))) = true
     /\ Drawing.in_bounds (scaled (snd (snd (bbox e)))) = true) ->
  map Drawing.text
    (Drawing.draw_bbox_multi_ios scaled record_mode dark_mode ps out)
  = map (fun i => str_of_int (Z.of_nat i + 1)) (seq 0 (List.length out)).
Proof.
  intros H Hmono Hb. unfold Drawing.draw_bbox_multi_ios.
  rewrite draw_from_all.
  - apply map_ext. intros i. f_equal. lia.
  - exact Hmono.
  - intros e He. split; [|apply Hb, He].
    eapply output_positive_area; eassumption.
Qed.

Lemma every_element_is_labelled_witness :
  map Drawing.text
    (Drawing.draw_bbox_multi_ios (fun c => c * 3) false false true row_elements)
  = ["1"; "2"].
Proof.
  apply (every_element_is_labelled (parse_as row_xml row_doc) row_xml
           row_elements (fun c => c * 3) false false true).
  - vm_compute; reflexivity.
  - intros a b Hab. lia.
  - intros e [<-|[<-|[]]]; vm_compute; repeat split; reflexivity.
Defined.

Section OnlyOverflow.







End OnlyOverflow.


